(** * mospolytech-bot: the service layer, embedded and verified

    A shallow embedding of the support bot's services
    ([app/services/*.py], with the parts of [app/keyboards/tickets.py] and
    [app/handlers/tickets.py] that gate the ticket life cycle), followed by
    the properties of the specification, each settled on the embedding.

    Conventions of the embedding.
    - A table the code reads by its integer primary key is a [gmap Z row]:
      the key of the map is the [id] column, so a mapped object is a pair of
      its [id] and its row.  A table the code scans or appends to is a
      [list] of rows in insertion order.
    - A service method becomes a function from the store to a [result],
      [Ok (value, store')] or [Raise e], where [store'] is what the commit
      of the calling handler writes.
    - The engine is the configured default, SQLite through aiosqlite
      ([DATABASE_URL] in [app/config.py]) opened without
      [PRAGMA foreign_keys]: unique constraints are enforced at flush,
      [ForeignKey] declarations are not.
    - Columns filled by the database server ([created_at], [updated_at]) are
      not part of the rows; clock readings and random digits the code draws
      are arguments.
    - Python strings are [string]s of UTF-8 bytes. *)

From Stdlib Require Import ZArith QArith String List Lia SpecFloat.
From stdpp Require Import gmap strings list sorting.

#[local] Open Scope Z_scope.
#[local] Set Warnings "-clear-no-such-hyp".

(* ================================================================== *)
(** * Part I: the embedding *)
(* ================================================================== *)

(** ** Python values the services rely on *)

Module Py.

(** Exceptions that can leave a service method. *)
Inductive exn : Type :=
| ValueError (msg : string)
| IntegrityError (constraint : string)
| MultipleResultsFound.

Inductive result (A : Type) : Type :=
| Ok (a : A)
| Raise (e : exn).
Arguments Ok {A} a.
Arguments Raise {A} e.

(** Truth value of an [Optional[str]]: [None] and the empty string are false. *)
Definition truthy_str (o : option string) : bool :=
  match o with
  | Some s => negb (String.eqb s "")
  | None => false
  end.

(** Truth value of an [Optional[int]]: [None] and [0] are false. *)
Definition truthy_int (o : option Z) : bool :=
  match o with
  | Some n => negb (Z.eqb n 0)
  | None => false
  end.

(** [len(s)]: the code points of a string held as UTF-8, that is its bytes
    other than continuation bytes [10xxxxxx]. *)
Fixpoint len (s : string) : nat :=
  match s with
  | EmptyString => 0%nat
  | String c s' =>
      let b := Z.of_nat (Ascii.nat_of_ascii c) in
      if Z.eqb (Z.land b 192) 128 then len s' else S (len s')
  end.

(** The line feed of the f-strings. *)
Definition NL : string := String (Ascii.ascii_of_nat 10) EmptyString.

(** [scalar_one_or_none()] over the rows a query selected. *)
Definition scalar_one_or_none {A : Type} (rows : list A) : result (option A) :=
  match rows with
  | [] => Ok None
  | [r] => Ok (Some r)
  | _ :: _ :: _ => Raise MultipleResultsFound
  end.

(** The integer primary key SQLite gives a new row: one more than the
    largest key in use, [1] in an empty table. *)
Definition fresh_key {V : Type} (m : gmap Z V) : Z :=
  1 + map_fold (fun k _ acc => Z.max k acc) 0 m.

Definition fresh_row_id (ids : list Z) : Z :=
  1 + foldr Z.max 0 ids.

(** [s[:n]]: the first [n] code points of a string held as UTF-8; the
    continuation bytes of a code point go with its first byte. *)
Fixpoint take_chars (n : nat) (s : string) : string :=
  match s with
  | EmptyString => EmptyString
  | String c s' =>
      let b := Z.of_nat (Ascii.nat_of_ascii c) in
      if Z.eqb (Z.land b 192) 128 then String c (take_chars n s')
      else match n with
           | O => EmptyString
           | S n' => String c (take_chars n' s')
           end
  end.

End Py.
Export Py.

(** ** [app/database/models.py] *)

Module Models.

Inductive UserRole : Type := STUDENT | TEACHER | MODERATOR | ADMIN | ANONYMOUS.

Definition UserRole_value (r : UserRole) : string :=
  match r with
  | STUDENT => "student"
  | TEACHER => "teacher"
  | MODERATOR => "moderator"
  | ADMIN => "admin"
  | ANONYMOUS => "anonymous"
  end.

(** [UserRole(value)]: the member whose value is [s]; [None] stands for the
    [ValueError] the enum raises on any other string. *)
Definition UserRole_of_value (s : string) : option UserRole :=
  if String.eqb s "student" then Some STUDENT
  else if String.eqb s "teacher" then Some TEACHER
  else if String.eqb s "moderator" then Some MODERATOR
  else if String.eqb s "admin" then Some ADMIN
  else if String.eqb s "anonymous" then Some ANONYMOUS
  else None.

Inductive TicketStatus : Type := OPEN | IN_PROGRESS | WAITING | RESOLVED | CLOSED.

Definition TicketStatus_value (s : TicketStatus) : string :=
  match s with
  | OPEN => "open"
  | IN_PROGRESS => "in_progress"
  | WAITING => "waiting"
  | RESOLVED => "resolved"
  | CLOSED => "closed"
  end.

#[global] Instance UserRole_eq_dec : EqDecision UserRole.
Proof. solve_decision. Defined.

#[global] Instance TicketStatus_eq_dec : EqDecision TicketStatus.
Proof. solve_decision. Defined.

(** [status in [a, b, ...]] *)
Definition status_in (s : TicketStatus) (l : list TicketStatus) : bool :=
  existsb (fun x => bool_decide (s = x)) l.
Arguments status_in : simpl never.

End Models.
Export Models.

Module Ticket.
Record t : Type := mk {
  ticket_number : string;
  user_id : Z;
  assigned_to_id : option Z;
  subject : string;
  description : string;
  status : TicketStatus;
  priority : Z;
  category : option string;
  is_anonymous : bool;
  resolved_at : option Z
}.

Definition set_status (x : t) (s : TicketStatus) : t :=
  mk (ticket_number x) (user_id x) (assigned_to_id x) (subject x)
     (description x) s (priority x) (category x) (is_anonymous x) (resolved_at x).

Definition set_resolved_at (x : t) (r : option Z) : t :=
  mk (ticket_number x) (user_id x) (assigned_to_id x) (subject x)
     (description x) (status x) (priority x) (category x) (is_anonymous x) r.

Definition set_assigned_to_id (x : t) (a : option Z) : t :=
  mk (ticket_number x) (user_id x) a (subject x)
     (description x) (status x) (priority x) (category x) (is_anonymous x) (resolved_at x).
End Ticket.

Module TicketMessage.
Record t : Type := mk {
  id : Z;
  ticket_id : Z;
  user_id : Z;
  message : string;
  is_from_staff : bool;
  is_internal : bool
}.
End TicketMessage.

(** ** [app/services/ticket_service.py] *)

Module TicketService.

(** The two tables the service works on.  [messages] is in insertion order,
    the order [get_messages] returns ([ORDER BY created_at]). *)
Record Store : Type := mkStore {
  tickets : gmap Z Ticket.t;
  messages : list TicketMessage.t
}.

(** [_generate_ticket_number]: [prefix] is [datetime.now().strftime("%Y%m")],
    [suffix] the four random digits. *)
Definition _generate_ticket_number (prefix suffix : string) : string :=
  "T" +:+ prefix +:+ "-" +:+ suffix.

(** The unique constraint on [tickets.ticket_number]. *)
Definition number_taken (number : string) (s : Store) : bool :=
  existsb (fun kv => String.eqb (Ticket.ticket_number (snd kv)) number)
          (map_to_list (tickets s)).

Definition next_message_id (s : Store) : Z :=
  fresh_row_id (map TicketMessage.id (messages s)).

Definition create_ticket (user_id : Z) (subject description : string)
    (category : option string) (priority : Z) (is_anonymous : bool)
    (prefix suffix : string) (s : Store) : result ((Z * Ticket.t) * Store) :=
  let number := _generate_ticket_number prefix suffix in
  if number_taken number s then Raise (IntegrityError "tickets.ticket_number")
  else
    let ticket :=
      Ticket.mk number user_id None subject description
                OPEN priority category is_anonymous None in
    let ticket_id := fresh_key (tickets s) in
    let s1 := mkStore (<[ticket_id := ticket]> (tickets s)) (messages s) in
    let message :=
      TicketMessage.mk (next_message_id s1) ticket_id user_id
                       description false false in
    Ok ((ticket_id, ticket), mkStore (tickets s1) (messages s1 ++ [message])).

Definition status_message (old_status new_status : TicketStatus)
    (comment : option string) : string :=
  let status_msg :=
    "Статус изменён: " +:+ TicketStatus_value old_status +:+ " → "
      +:+ TicketStatus_value new_status in
  if truthy_str comment
  then status_msg +:+ NL +:+ NL +:+ "Комментарий: " +:+ default "" comment
  else status_msg.

Definition update_status (ticket_id : Z) (new_status : TicketStatus)
    (user_id : Z) (comment : option string) (now : Z) (s : Store)
    : result (option Ticket.t * Store) :=
  match tickets s !! ticket_id with
  | None => Ok (None, s)
  | Some ticket =>
      let old_status := Ticket.status ticket in
      let ticket := Ticket.set_status ticket new_status in
      let ticket :=
        if status_in new_status [RESOLVED; CLOSED]
        then Ticket.set_resolved_at ticket (Some now)
        else ticket in
      let status_msg := status_message old_status new_status comment in
      let message :=
        TicketMessage.mk (next_message_id s) ticket_id user_id
                         status_msg true false in
      Ok (Some ticket,
          mkStore (<[ticket_id := ticket]> (tickets s)) (messages s ++ [message]))
  end.

Definition assign_ticket (ticket_id assigned_to_id : Z) (s : Store)
    : result (option Ticket.t * Store) :=
  match tickets s !! ticket_id with
  | Some ticket =>
      let ticket := Ticket.set_assigned_to_id ticket (Some assigned_to_id) in
      let ticket :=
        if bool_decide (Ticket.status ticket = OPEN)
        then Ticket.set_status ticket IN_PROGRESS
        else ticket in
      Ok (Some ticket, mkStore (<[ticket_id := ticket]> (tickets s)) (messages s))
  | None => Ok (None, s)
  end.

Definition add_message (ticket_id user_id : Z) (message : string)
    (is_from_staff is_internal : bool) (s : Store)
    : result (TicketMessage.t * Store) :=
  let tickets' :=
    match tickets s !! ticket_id with
    | Some ticket =>
        let ticket :=
          if is_from_staff
          then (if bool_decide (Ticket.status ticket = OPEN)
                then Ticket.set_status ticket IN_PROGRESS else ticket)
          else (if bool_decide (Ticket.status ticket = WAITING)
                then Ticket.set_status ticket IN_PROGRESS else ticket) in
        <[ticket_id := ticket]> (tickets s)
    | None => tickets s
    end in
  let msg :=
    TicketMessage.mk (next_message_id s) ticket_id user_id message
                     is_from_staff is_internal in
  Ok (msg, mkStore tickets' (messages s ++ [msg])).

Definition get_messages (ticket_id : Z) (include_internal : bool) (s : Store)
    : list TicketMessage.t :=
  filter (fun m => TicketMessage.ticket_id m = ticket_id
                   /\ (include_internal = true \/ TicketMessage.is_internal m = false))
         (messages s).

(** The [Ticket.messages] relationship: the message log of a ticket. *)
Definition message_log (ticket_id : Z) (s : Store) : list TicketMessage.t :=
  filter (fun m => TicketMessage.ticket_id m = ticket_id) (messages s).

Definition get_ticket_by_id (ticket_id : Z) (s : Store) : option Ticket.t :=
  tickets s !! ticket_id.

Definition get_ticket_by_number (ticket_number : string) (s : Store)
    : result (option (Z * Ticket.t)) :=
  scalar_one_or_none
    (filter (fun kv => Ticket.ticket_number (snd kv) = ticket_number)
            (map_to_list (tickets s))).

(** The WHERE clause of [get_unassigned_count]. *)
Definition unassigned (kv : Z * Ticket.t) : Prop :=
  Ticket.assigned_to_id (snd kv) = None
  /\ status_in (Ticket.status (snd kv)) [OPEN; IN_PROGRESS] = true.

#[global] Instance unassigned_dec (kv : Z * Ticket.t) : Decision (unassigned kv).
Proof. unfold unassigned. apply _. Defined.

(** [get_unassigned_count]; a count is never [None], and [0 or 0] is [0]. *)
Definition get_unassigned_count (s : Store) : Z :=
  Z.of_nat (size (filter unassigned (tickets s))).

(** The two counting queries of [get_stats]. *)
Definition count_total (s : Store) : Z := Z.of_nat (size (tickets s)).

Definition count_status (status : TicketStatus) (s : Store) : Z :=
  Z.of_nat (size (filter (fun kv : Z * Ticket.t => Ticket.status (snd kv) = status)
                         (tickets s))).

End TicketService.

(** ** [app/keyboards/tickets.py], the inline keyboards of a ticket *)

Module TicketKeyboards.

(** [callback_data], as the tagged payload its f-string encodes. *)
Inductive callback : Type :=
| ticket_view (ticket_id : Z)
| ticket_reply (ticket_id : Z)
| ticket_close (ticket_id : Z)
| ticket_reopen (ticket_id : Z)
| admin_ticket_status (ticket_id : Z)
| admin_ticket_assign (ticket_id : Z)
| ticket_set_status (ticket_id : Z) (status : TicketStatus)
| tickets_list.

Record InlineKeyboardButton : Type := Button {
  text : string;
  callback_data : callback
}.

Definition InlineKeyboardMarkup : Type := list (list InlineKeyboardButton).

Definition ticket_actions (ticket_id : Z) (ticket : Ticket.t) (is_staff : bool)
    : InlineKeyboardMarkup :=
  let buttons := [] in
  let buttons :=
    if negb (status_in (Ticket.status ticket) [RESOLVED; CLOSED])
    then buttons ++ [[Button "💬 Добавить сообщение" (ticket_reply ticket_id)]]
    else buttons in
  let buttons :=
    if bool_decide (Ticket.status ticket = RESOLVED)
    then buttons ++ [[Button "✅ Закрыть обращение" (ticket_close ticket_id);
                      Button "🔄 Переоткрыть" (ticket_reopen ticket_id)]]
    else buttons in
  let buttons :=
    if is_staff
    then (buttons ++ [[Button "📝 Изменить статус" (admin_ticket_status ticket_id)]])
           ++ [[Button "👤 Назначить" (admin_ticket_assign ticket_id)]]
    else buttons in
  buttons ++ [[Button "◀️ К списку" tickets_list]].

Definition status_change (ticket_id : Z) : InlineKeyboardMarkup :=
  let statuses :=
    [(IN_PROGRESS, "🔄 В работе"); (WAITING, "⏳ Ожидает ответа");
     (RESOLVED, "✅ Решён"); (CLOSED, "🔒 Закрыт")] in
  map (fun sn => [Button (snd sn) (ticket_set_status ticket_id (fst sn))]) statuses
    ++ [[Button "❌ Отмена" (ticket_view ticket_id)]].

(** The callbacks a keyboard can send. *)
Definition callbacks (kb : InlineKeyboardMarkup) : list callback :=
  map callback_data (concat kb).

End TicketKeyboards.

(** ** [app/handlers/tickets.py] and [app/handlers/admin.py], the callbacks
    that change a status *)

Module TicketHandlers.
Import TicketService.

(** What a handler leaves behind: the committed store and the alert it
    answers the callback with ([None] when it returns without answering). *)
Definition handled : Type := (Store * option string)%type.

Definition committed (r : result (option Ticket.t * Store)) (s : Store) : Store :=
  match r with
  | Ok (_, s') => s'
  | Raise _ => s
  end.

Definition close_ticket (ticket_id user_id now : Z) (s : Store) : handled :=
  (committed (update_status ticket_id CLOSED user_id None now s) s,
   Some "✅ Обращение закрыто").

Definition reopen_ticket (ticket_id user_id now : Z) (s : Store) : handled :=
  (committed (update_status ticket_id OPEN user_id
                (Some "Переоткрыто пользователем") now s) s,
   Some "🔓 Обращение переоткрыто").

Definition admin_filter (role : UserRole) : bool :=
  existsb (fun r => bool_decide (role = r)) [ADMIN; MODERATOR].

(** [process_ticket_reply]: [reply_ticket_id] is what the conversation state
    holds, [reply_text] the stripped text of the message. *)
Definition process_ticket_reply (reply_ticket_id : option Z)
    (reply_text : string) (role : UserRole) (user_id : Z) (s : Store)
    : handled :=
  if negb (truthy_int reply_ticket_id) then (s, None)
  else
    let ticket_id := default 0 reply_ticket_id in
    if (len reply_text <? 2)%nat then (s, Some "⚠️ Сообщение слишком короткое")
    else
      match tickets s !! ticket_id with
      | None => (s, Some "❌ Обращение не найдено")
      | Some _ =>
          let is_from_staff :=
            existsb (String.eqb (UserRole_value role)) ["admin"; "moderator"] in
          (match add_message ticket_id user_id reply_text is_from_staff false s with
           | Ok (_, s') => s'
           | Raise _ => s
           end,
           Some ("✅ Сообщение добавлено!" +:+ NL +:+ NL
                   +:+ "Используйте /tickets для просмотра обращений."))
      end.

Definition callback_set_ticket_status (role : UserRole)
    (ticket_id : Z) (new_status : TicketStatus) (user_id now : Z) (s : Store)
    : handled :=
  if negb (admin_filter role) then (s, None)
  else (committed (update_status ticket_id new_status user_id None now s) s,
        Some ("Статус изменён на: " +:+ TicketStatus_value new_status)).

(** [callback_view_ticket] up to the point where the messages are read:
    the alert it answers with, or the ticket and the messages it goes on to
    show. *)
Inductive view : Type :=
| view_alert (text : string)
| view_ticket (ticket : Ticket.t) (messages : list TicketMessage.t).

Definition callback_view_ticket (ticket_id user_id : Z) (role : UserRole)
    (s : Store) : view :=
  match get_ticket_by_id ticket_id s with
  | None => view_alert "Обращение не найдено"
  | Some ticket =>
      if negb (Z.eqb (Ticket.user_id ticket) user_id)
         && negb (existsb (String.eqb (UserRole_value role)) ["admin"; "moderator"])
      then view_alert "Нет доступа к этому обращению"
      else view_ticket ticket (get_messages ticket_id false s)
  end.

(** The messages a view shows, [messages[-5:]]. *)
Definition last_messages (messages : list TicketMessage.t)
    : list TicketMessage.t :=
  drop (length messages - 5) messages.

(** [callback_admin_ticket_assign] *)
Definition callback_admin_ticket_assign (role : UserRole) (ticket_id user_id : Z)
    (s : Store) : handled :=
  if negb (admin_filter role) then (s, None)
  else (committed (assign_ticket ticket_id user_id s) s,
        Some "✅ Тикет назначен на вас").

End TicketHandlers.

(** ** FAQ rows, favorites and documents of [app/database/models.py] *)

Module FAQItem.
(** [links] holds [json.dumps] of a list of link dictionaries, or a string
    the caller already encoded. *)
Inductive links_text : Type :=
| json_dumps (links : list (string * string))
| encoded (s : string).

Record t : Type := mk {
  category_id : Z;
  question : string;
  answer : string;
  keywords : option string;
  links : option links_text;
  views_count : Z;
  helpful_count : Z;
  not_helpful_count : Z;
  order : Z;
  is_active : bool;
  is_pinned : bool
}.

Definition set_views_count (x : t) (v : Z) : t :=
  mk (category_id x) (question x) (answer x) (keywords x) (links x)
     v (helpful_count x) (not_helpful_count x) (order x) (is_active x) (is_pinned x).

Definition set_helpful_count (x : t) (v : Z) : t :=
  mk (category_id x) (question x) (answer x) (keywords x) (links x)
     (views_count x) v (not_helpful_count x) (order x) (is_active x) (is_pinned x).

Definition set_not_helpful_count (x : t) (v : Z) : t :=
  mk (category_id x) (question x) (answer x) (keywords x) (links x)
     (views_count x) (helpful_count x) v (order x) (is_active x) (is_pinned x).
End FAQItem.

Module UserFavorite.
Record t : Type := mk {
  id : Z;
  user_id : Z;
  faq_item_id : Z
}.
End UserFavorite.

Module Document.
Record t : Type := mk {
  name : string;
  description : option string;
  category : string;
  file_id : option string;
  file_url : option string;
  file_type : option string;
  keywords : option string;
  is_active : bool;
  downloads_count : Z
}.
End Document.

(** ** [app/services/faq_service.py]: items, ratings and favorites *)

Module FAQService.

Record Store : Type := mkStore {
  items : gmap Z FAQItem.t;
  favorites : list UserFavorite.t
}.

(** One keyword argument of [update_item], with a value of the column's
    type.  [kw_links_list] is a [links] argument that is a Python list;
    [kw_other] is a key the mapped class has no attribute for.  Keys that
    name the primary key, a relationship or a server-filled column are not
    modelled. *)
Inductive kwarg : Type :=
| kw_category_id (v : Z)
| kw_question (v : string)
| kw_answer (v : string)
| kw_keywords (v : option string)
| kw_links (v : option string)
| kw_links_list (v : list (string * string))
| kw_views_count (v : Z)
| kw_helpful_count (v : Z)
| kw_not_helpful_count (v : Z)
| kw_order (v : Z)
| kw_is_active (v : bool)
| kw_is_pinned (v : bool)
| kw_other (key : string).

Definition kwarg_key (k : kwarg) : string :=
  match k with
  | kw_category_id _ => "category_id"
  | kw_question _ => "question"
  | kw_answer _ => "answer"
  | kw_keywords _ => "keywords"
  | kw_links _ | kw_links_list _ => "links"
  | kw_views_count _ => "views_count"
  | kw_helpful_count _ => "helpful_count"
  | kw_not_helpful_count _ => "not_helpful_count"
  | kw_order _ => "order"
  | kw_is_active _ => "is_active"
  | kw_is_pinned _ => "is_pinned"
  | kw_other key => key
  end.

(** [if hasattr(item, key): setattr(item, key, value)], after the
    [json.dumps] of a list-valued [links]. *)
Definition setattr (item : FAQItem.t) (k : kwarg) : FAQItem.t :=
  let '(FAQItem.mk c q a kws l v h nh o act pin) := item in
  match k with
  | kw_category_id x => FAQItem.mk x q a kws l v h nh o act pin
  | kw_question x => FAQItem.mk c x a kws l v h nh o act pin
  | kw_answer x => FAQItem.mk c q x kws l v h nh o act pin
  | kw_keywords x => FAQItem.mk c q a x l v h nh o act pin
  | kw_links x => FAQItem.mk c q a kws (FAQItem.encoded <$> x) v h nh o act pin
  | kw_links_list x => FAQItem.mk c q a kws (Some (FAQItem.json_dumps x)) v h nh o act pin
  | kw_views_count x => FAQItem.mk c q a kws l x h nh o act pin
  | kw_helpful_count x => FAQItem.mk c q a kws l v x nh o act pin
  | kw_not_helpful_count x => FAQItem.mk c q a kws l v h x o act pin
  | kw_order x => FAQItem.mk c q a kws l v h nh x act pin
  | kw_is_active x => FAQItem.mk c q a kws l v h nh o x pin
  | kw_is_pinned x => FAQItem.mk c q a kws l v h nh o act x
  | kw_other _ => item
  end.

Definition create_item (category_id : Z) (question answer : string)
    (keywords : option string) (links : option (list (string * string)))
    (order : Z) (s : Store) : result ((Z * FAQItem.t) * Store) :=
  let item :=
    FAQItem.mk category_id question answer keywords
      (match links with
       | Some (_ :: _ as l) => Some (FAQItem.json_dumps l)
       | _ => None
       end)
      0 0 0 order true false in
  let item_id := fresh_key (items s) in
  Ok ((item_id, item), mkStore (<[item_id := item]> (items s)) (favorites s)).

Definition update_item (item_id : Z) (kwargs : list kwarg) (s : Store)
    : result (option FAQItem.t * Store) :=
  match items s !! item_id with
  | Some item =>
      let item := fold_left setattr kwargs item in
      Ok (Some item, mkStore (<[item_id := item]> (items s)) (favorites s))
  | None => Ok (None, s)
  end.

Definition delete_item (item_id : Z) (s : Store) : result (bool * Store) :=
  match items s !! item_id with
  | Some _ => Ok (true, mkStore (delete item_id (items s)) (favorites s))
  | None => Ok (false, s)
  end.

Definition increment_view (item_id : Z) (s : Store) : result (unit * Store) :=
  Ok (tt, mkStore
            (alter (fun it => FAQItem.set_views_count it (FAQItem.views_count it + 1))
                   item_id (items s))
            (favorites s)).

Definition rate_item (item_id : Z) (is_helpful : bool) (s : Store)
    : result (unit * Store) :=
  if is_helpful
  then Ok (tt, mkStore
                 (alter (fun it => FAQItem.set_helpful_count it
                                     (FAQItem.helpful_count it + 1))
                        item_id (items s))
                 (favorites s))
  else Ok (tt, mkStore
                 (alter (fun it => FAQItem.set_not_helpful_count it
                                     (FAQItem.not_helpful_count it + 1))
                        item_id (items s))
                 (favorites s)).

(** The rows of [user_favorites] for one (user, item) pair. *)
Definition select_favorite (user_id faq_item_id : Z) (s : Store)
    : list UserFavorite.t :=
  filter (fun f => UserFavorite.user_id f = user_id
                   /\ UserFavorite.faq_item_id f = faq_item_id)
         (favorites s).

Definition add_to_favorites (user_id faq_item_id : Z) (s : Store)
    : result (bool * Store) :=
  match scalar_one_or_none (select_favorite user_id faq_item_id s) with
  | Raise e => Raise e
  | Ok (Some _) => Ok (false, s)
  | Ok None =>
      let favorite :=
        UserFavorite.mk (fresh_row_id (map UserFavorite.id (favorites s)))
                        user_id faq_item_id in
      Ok (true, mkStore (items s) (favorites s ++ [favorite]))
  end.

Definition remove_from_favorites (user_id faq_item_id : Z) (s : Store)
    : result (bool * Store) :=
  match scalar_one_or_none (select_favorite user_id faq_item_id s) with
  | Raise e => Raise e
  | Ok (Some favorite) =>
      Ok (true,
          mkStore (items s)
                  (filter (fun f => UserFavorite.id f <> UserFavorite.id favorite)
                          (favorites s)))
  | Ok None => Ok (false, s)
  end.

Definition is_favorite (user_id faq_item_id : Z) (s : Store) : result bool :=
  match scalar_one_or_none (select_favorite user_id faq_item_id s) with
  | Raise e => Raise e
  | Ok o => Ok (bool_decide (is_Some o))
  end.

Definition get_item_by_id (item_id : Z) (s : Store) : option FAQItem.t :=
  items s !! item_id.

(** The operations that write to [faq_items]. *)
Inductive op : Type :=
| op_create_item (category_id : Z) (question answer : string)
    (keywords : option string) (links : option (list (string * string))) (order : Z)
| op_update_item (item_id : Z) (kwargs : list kwarg)
| op_delete_item (item_id : Z)
| op_increment_view (item_id : Z)
| op_rate_item (item_id : Z) (is_helpful : bool)
| op_add_to_favorites (user_id faq_item_id : Z)
| op_remove_from_favorites (user_id faq_item_id : Z).

Definition store_of {A : Type} (r : result (A * Store)) (s : Store) : Store :=
  match r with
  | Ok (_, s') => s'
  | Raise _ => s
  end.

(** One operation, then the commit (a rollback when it raised). *)
Definition step (s : Store) (o : op) : Store :=
  match o with
  | op_create_item c q a k l ord => store_of (create_item c q a k l ord s) s
  | op_update_item i kw => store_of (update_item i kw s) s
  | op_delete_item i => store_of (delete_item i s) s
  | op_increment_view i => store_of (increment_view i s) s
  | op_rate_item i h => store_of (rate_item i h s) s
  | op_add_to_favorites u i => store_of (add_to_favorites u i s) s
  | op_remove_from_favorites u i => store_of (remove_from_favorites u i s) s
  end.

Definition run (ops : list op) (s : Store) : Store := fold_left step ops s.

(** The queries of [get_stats] on [faq_items]: the count of active items
    and [func.sum] of a counter column over all items; [None or 0], the sum
    over no rows, is [0]. *)
Definition items_count (s : Store) : Z :=
  Z.of_nat (size (filter (fun kv : Z * FAQItem.t => FAQItem.is_active (snd kv) = true)
                         (items s))).

Definition sum_column (column : FAQItem.t -> Z) (s : Store) : Z :=
  map_fold (fun _ it acc => column it + acc) 0 (items s).

Definition total_views : Store -> Z := sum_column FAQItem.views_count.
Definition total_helpful : Store -> Z := sum_column FAQItem.helpful_count.
Definition total_not_helpful : Store -> Z := sum_column FAQItem.not_helpful_count.

End FAQService.

(** ** The fuzzy search of [FAQService.search] and [DocumentService.search] *)

(** An insertion-ordered Python [dict] with integer keys. *)
Module Dict.
Section Dict.
Context {V : Type}.

Fixpoint set (k : Z) (v : V) (d : list (Z * V)) : list (Z * V) :=
  match d with
  | [] => [(k, v)]
  | (k', v') :: d' =>
      if Z.eqb k k' then (k, v) :: d' else (k', v') :: set k v d'
  end.

Fixpoint get (k : Z) (d : list (Z * V)) : option V :=
  match d with
  | [] => None
  | (k', v') :: d' => if Z.eqb k k' then Some v' else get k d'
  end.

End Dict.
End Dict.

(** [rapidfuzz.process.extract] and the list sort the services apply to its
    result.  A score is a float between 0 and 100; only its order matters
    here, so it is a rational. *)
Module Fuzz.

(** Stable sort by descending key: an element goes in front of the first
    element whose key is not greater than its own, so equal keys keep the
    order they came in ([list.sort(key=..., reverse=True)]). *)
Fixpoint insert_desc {A : Type} (key : A -> Q) (x : A) (l : list A) : list A :=
  match l with
  | [] => [x]
  | y :: l' =>
      if Qle_bool (key y) (key x) then x :: y :: l'
      else y :: insert_desc key x l'
  end.

Definition sort_desc {A : Type} (key : A -> Q) (l : list A) : list A :=
  foldr (insert_desc key) [] l.

(** One element of the list [extract] returns: (choice, score, key). *)
Definition hit : Type := (string * Q * Z)%type.

Definition hit_score (m : hit) : Q := snd (fst m).

(** [process.extract(query, choices, scorer=scorer, limit=limit)] over a
    dict of choices: every choice is scored, the list is ordered by
    descending score, choices of equal score in the order of the dict, and
    cut to [limit] elements. *)
Definition extract (scorer : string -> string -> Q) (query : string)
    (choices : list (Z * string)) (limit : nat) : list hit :=
  take limit
       (sort_desc hit_score
                  (map (fun kc => (snd kc, scorer query (snd kc), fst kc)) choices)).

End Fuzz.

Module Search.
Section Search.

(** The mapped class searched, [text_of] building the text to match, and
    [fuzz.token_set_ratio]. *)
Context {A : Type}.
Variable text_of : A -> string.
Variable token_set_ratio : string -> string -> Q.

(** A selected row: its primary key and its columns. *)
Definition candidate : Type := (Z * A)%type.

Definition build_search_data (items : list candidate)
    : list (Z * (candidate * string)) :=
  fold_left (fun d item => Dict.set (fst item) (item, text_of (snd item)) d)
            items [].

(** The loop over the matches; a key missing from [search_data] is the
    [KeyError] of [search_data[item_id]]. *)
Fixpoint collect (search_data : list (Z * (candidate * string)))
    (threshold : Z) (matches : list Fuzz.hit) : option (list (candidate * Q)) :=
  match matches with
  | [] => Some []
  | (_, score, item_id) :: rest =>
      if Qle_bool (inject_Z threshold) score
      then match Dict.get item_id search_data with
           | Some data => cons (fst data, score) <$> collect search_data threshold rest
           | None => None
           end
      else collect search_data threshold rest
  end.

(** [search(query, limit, threshold)] on the rows [items] the SELECT of the
    active rows returned; [None] is the [KeyError]. *)
Definition search (items : list candidate) (query : string) (limit : nat)
    (threshold : Z) : option (list (candidate * Q)) :=
  match items with
  | [] => Some []
  | _ :: _ =>
      let search_data := build_search_data items in
      let texts := map (fun kd => (fst kd, snd (snd kd))) search_data in
      let matches := Fuzz.extract token_set_ratio query texts (limit * 2) in
      match collect search_data threshold matches with
      | Some results => Some (take limit (Fuzz.sort_desc snd results))
      | None => None
      end
  end.

End Search.
End Search.

Module FAQSearch.

(** [search_text] of an FAQ item: the question, then the keywords. *)
Definition search_text (item : FAQItem.t) : string :=
  let search_text := FAQItem.question item in
  if truthy_str (FAQItem.keywords item)
  then search_text +:+ " " +:+ default "" (FAQItem.keywords item)
  else search_text.

(** The SELECT of the active rows, [rows] being the table in the order the
    engine scans it. *)
Definition active_items (rows : list (Z * FAQItem.t)) : list (Z * FAQItem.t) :=
  filter (fun r => FAQItem.is_active (snd r) = true) rows.

Definition search (token_set_ratio : string -> string -> Q)
    (rows : list (Z * FAQItem.t)) (query : string) (limit : nat)
    (threshold : Z) : option (list ((Z * FAQItem.t) * Q)) :=
  Search.search search_text token_set_ratio (active_items rows)
                query limit threshold.

End FAQSearch.

Module DocumentService.

Definition search_text (doc : Document.t) : string :=
  let search_text := Document.name doc in
  let search_text :=
    if truthy_str (Document.description doc)
    then search_text +:+ " " +:+ default "" (Document.description doc)
    else search_text in
  if truthy_str (Document.keywords doc)
  then search_text +:+ " " +:+ default "" (Document.keywords doc)
  else search_text.

Definition active_documents (rows : list (Z * Document.t)) : list (Z * Document.t) :=
  filter (fun r => Document.is_active (snd r) = true) rows.

Definition search (token_set_ratio : string -> string -> Q)
    (rows : list (Z * Document.t)) (query : string) (limit : nat)
    (threshold : Z) : option (list ((Z * Document.t) * Q)) :=
  Search.search search_text token_set_ratio (active_documents rows)
                query limit threshold.

End DocumentService.

(** ** Python numbers of [AnalyticsService.get_dashboard_summary] *)

(** A Python [float] is an IEEE 754 binary64 number, here a [spec_float] of
    the Standard Library with 53 bits of precision; every operation rounds
    to nearest, ties to even. *)
Module PyFloat.

Definition prec : Z := 53.
Definition emax : Z := 1024.

(** An integer as the exact dyadic number [z * 2^0] (not normalized). *)
Definition exact_int (z : Z) : spec_float :=
  match z with
  | Z0 => S754_zero false
  | Zpos p => S754_finite false p 0
  | Zneg p => S754_finite true p 0
  end.

(** [float(z)] *)
Definition of_int (z : Z) : spec_float := binary_normalize prec emax z 0 false.

(** [a / b] on two [int]s with [b] not zero: the exact quotient, rounded
    once. *)
Definition int_truediv (a b : Z) : spec_float :=
  SFdiv prec emax (exact_int a) (exact_int b).

Definition mul (x y : spec_float) : spec_float := SFmul prec emax x y.

(** The digits [_Py_dg_dtoa(x, 3, 1, ...)] produces for [m * 2^e]: the
    integer nearest to [10 * m * 2^e], ties to even. *)
Definition dtoa1 (m : positive) (e : Z) : Z :=
  if 0 <=? e then 10 * Zpos m * 2 ^ e
  else
    let d := 2 ^ (- e) in
    let q := (10 * Zpos m) / d in
    let r := (10 * Zpos m) mod d in
    if 2 * r <? d then q
    else if d <? 2 * r then q + 1
    else if Z.even q then q else q + 1.

(** [_Py_dg_strtod] of the decimal [n / 10] with sign [s]. *)
Definition strtod1 (s : bool) (n : Z) : spec_float :=
  match n with
  | Zpos p => SFdiv prec emax (S754_finite s p 0) (exact_int 10)
  | _ => S754_zero s
  end.

(** [round(x, 1)]: zeros, infinities and nan round to themselves; a finite
    [x] goes through its decimal string with one digit after the point. *)
Definition round1 (x : spec_float) : spec_float :=
  match x with
  | S754_finite s m e => strtod1 s (dtoa1 m e)
  | _ => x
  end.

End PyFloat.

(** ** [app/services/analytics_service.py] *)

Module AnalyticsService.

(** The value of [requests_change_percent]: an [int] or a [float]. *)
Inductive number : Type :=
| PyInt (n : Z)
| PyFloat (x : spec_float).

(** [scalar() or 0] *)
Definition or_0 (o : option Z) : Z :=
  if truthy_int o then default 0 o else 0.

Definition change_percent (today_count yesterday_count : Z) : number :=
  if 0 <? yesterday_count
  then PyFloat (PyFloat.round1
                  (PyFloat.mul
                     (PyFloat.int_truediv (today_count - yesterday_count)
                                          yesterday_count)
                     (PyFloat.of_int 100)))
  else PyInt (if 0 <? today_count then 100 else 0).

Record summary : Type := mkSummary {
  requests_today : Z;
  requests_yesterday : Z;
  requests_change_percent : number;
  new_users_week : Z;
  active_users_week : Z
}.

(** [get_dashboard_summary], from the four counts its queries return. *)
Definition get_dashboard_summary
    (today_requests yesterday_requests new_users active_users : option Z)
    : summary :=
  let today_count := or_0 today_requests in
  let yesterday_count := or_0 yesterday_requests in
  mkSummary today_count yesterday_count
            (change_percent today_count yesterday_count)
            (or_0 new_users) (or_0 active_users).

End AnalyticsService.

(** ** Users and notifications of [app/database/models.py] *)

Module User.
Record t : Type := mk {
  telegram_id : Z;
  username : option string;
  first_name : option string;
  last_name : option string;
  full_name : option string;
  course : option Z;
  group_name : option string;
  student_id : option string;
  faculty : option string;
  role : UserRole;
  is_active : bool;
  is_verified : bool;
  is_anonymous : bool;
  notifications_enabled : bool;
  language : string;
  is_onboarded : bool;
  tips_enabled : bool;
  last_activity : option Z
}.

Definition set_is_active (u : t) (b : bool) : t :=
  mk (telegram_id u) (username u) (first_name u) (last_name u) (full_name u)
     (course u) (group_name u) (student_id u) (faculty u) (role u) b
     (is_verified u) (is_anonymous u) (notifications_enabled u) (language u)
     (is_onboarded u) (tips_enabled u) (last_activity u).
End User.

Module Notification.
Record t : Type := mk {
  title : string;
  message : string;
  target_role : option string;
  target_group : option string;
  target_course : option Z;
  target_faculty : option string;
  is_active : bool;
  is_sent : bool;
  sent_count : Z;
  scheduled_at : option Z;
  sent_at : option Z
}.

Definition set_target_role (n : t) (r : option string) : t :=
  mk (title n) (message n) r (target_group n) (target_course n)
     (target_faculty n) (is_active n) (is_sent n) (sent_count n)
     (scheduled_at n) (sent_at n).

Definition mark_sent (n : t) (now count : Z) : t :=
  mk (title n) (message n) (target_role n) (target_group n) (target_course n)
     (target_faculty n) (is_active n) true count (scheduled_at n) (Some now).
End Notification.

(** ** [app/services/notification_service.py] *)

Module NotificationService.

(** What [bot.send_message] does for one chat: it returns, or raises one of
    the exceptions [send_notification] tells apart. *)
Inductive delivery : Type :=
| Delivered
| TelegramForbiddenError
| TelegramBadRequest
| OtherException.

#[global] Instance delivery_eq_dec : EqDecision delivery.
Proof. solve_decision. Defined.

(** The transport: the outcome of a send, by chat and text. *)
Definition Bot : Type := Z -> string -> delivery.

(** The [where] clauses of a query on [users], ANDed. *)
Definition query : Type := list (User.t -> bool).

Definition execute (q : query) (users : gmap Z User.t) : list (Z * User.t) :=
  filter (fun r => forallb (fun clause => clause (snd r)) q = true)
         (map_to_list users).

Definition get_target_users (notification : Notification.t)
    (users : gmap Z User.t) : list (Z * User.t) :=
  let query := [User.is_active; User.notifications_enabled] in
  let query :=
    if truthy_str (Notification.target_role notification)
    then match UserRole_of_value (default "" (Notification.target_role notification)) with
         | Some role => query ++ [fun u => bool_decide (User.role u = role)]
         | None => query
         end
    else query in
  let query :=
    if truthy_str (Notification.target_group notification)
    then query ++ [fun u => bool_decide (User.group_name u
                                          = Notification.target_group notification)]
    else query in
  let query :=
    if truthy_int (Notification.target_course notification)
    then query ++ [fun u => bool_decide (User.course u
                                          = Notification.target_course notification)]
    else query in
  let query :=
    if truthy_str (Notification.target_faculty notification)
    then query ++ [fun u => bool_decide (User.faculty u
                                          = Notification.target_faculty notification)]
    else query in
  execute query users.

(** The state of the loop of [send_notification]: the count, the users as
    the session holds them, and the sends attempted so far. *)
Record progress : Type := mkProgress {
  sent_count : Z;
  users : gmap Z User.t;
  attempts : list (Z * string)
}.

Definition send_one (bot : Bot) (text : string) (p : progress)
    (user : Z * User.t) : progress :=
  let chat_id := User.telegram_id (snd user) in
  let attempts := attempts p ++ [(chat_id, text)] in
  match bot chat_id text with
  | Delivered => mkProgress (sent_count p + 1) (users p) attempts
  | TelegramForbiddenError =>
      mkProgress (sent_count p)
                 (alter (fun u => User.set_is_active u false) (fst user) (users p))
                 attempts
  | TelegramBadRequest => mkProgress (sent_count p) (users p) attempts
  | OtherException => mkProgress (sent_count p) (users p) attempts
  end.

Definition notification_text (notification : Notification.t) : string :=
  "📢 <b>" +:+ Notification.title notification +:+ "</b>" +:+ NL +:+ NL
    +:+ Notification.message notification.

(** [send_notification]: the returned count, with the notification and the
    loop state the flush writes. *)
Definition send_notification (bot : option Bot) (notification : Notification.t)
    (now : Z) (users : gmap Z User.t) : result (Z * (Notification.t * progress)) :=
  match bot with
  | None => Raise (ValueError "Bot instance not provided")
  | Some bot =>
      let targets := get_target_users notification users in
      let text := notification_text notification in
      let p := fold_left (send_one bot text) targets (mkProgress 0 users []) in
      Ok (sent_count p,
          (Notification.mark_sent notification now (sent_count p), p))
  end.

(** The recipients whose send raised. *)
Definition failed (bot : Bot) (text : string) (targets : list (Z * User.t))
    : list (Z * User.t) :=
  filter (fun r => bot (User.telegram_id (snd r)) text <> Delivered) targets.

(** [create_notification] into the table of notifications. *)
Definition create_notification (title message : string)
    (target_role target_group : option string) (target_course : option Z)
    (target_faculty : option string) (scheduled_at : option Z)
    (table : gmap Z Notification.t)
    : result ((Z * Notification.t) * gmap Z Notification.t) :=
  let notification :=
    Notification.mk title message target_role target_group target_course
                    target_faculty true false 0 scheduled_at None in
  let id := fresh_key table in
  Ok ((id, notification), <[id := notification]> table).

(** The WHERE clause of [get_pending_notifications]. *)
Definition pending (now : Z) (kv : Z * Notification.t) : Prop :=
  Notification.is_active (snd kv) = true
  /\ Notification.is_sent (snd kv) = false
  /\ match Notification.scheduled_at (snd kv) with
     | None => True
     | Some scheduled_at => scheduled_at <= now
     end.

#[global] Instance pending_dec (now : Z) (kv : Z * Notification.t) :
  Decision (pending now kv).
Proof.
  unfold pending. destruct (Notification.scheduled_at (snd kv)); apply _.
Defined.

Definition get_pending_notifications (now : Z) (table : gmap Z Notification.t)
    : list (Z * Notification.t) :=
  filter (pending now) (map_to_list table).

(** The loop of [send_to_moderators]: the count and the sends attempted. *)
Definition notify_one (bot : Bot) (text : string) (acc : Z * list (Z * string))
    (mod_ : Z * User.t) : Z * list (Z * string) :=
  let chat_id := User.telegram_id (snd mod_) in
  match bot chat_id text with
  | Delivered => (fst acc + 1, snd acc ++ [(chat_id, text)])
  | _ => (fst acc, snd acc ++ [(chat_id, text)])
  end.

Definition moderators (users : gmap Z User.t) : list (Z * User.t) :=
  execute [fun u => existsb (fun r => bool_decide (User.role u = r)) [ADMIN; MODERATOR];
           User.is_active]
          users.

Definition send_to_moderators (bot : option Bot) (text : string)
    (users : gmap Z User.t) : result (Z * list (Z * string)) :=
  match bot with
  | None => Raise (ValueError "Bot instance not provided")
  | Some bot => Ok (fold_left (notify_one bot text) (moderators users) (0, []))
  end.

Definition new_ticket_text (ticket_number subject : string) : string :=
  "🎫 <b>Новое обращение!</b>" +:+ NL +:+ NL
    +:+ "Номер: <code>" +:+ ticket_number +:+ "</code>" +:+ NL
    +:+ "Тема: " +:+ subject +:+ NL +:+ NL
    +:+ "Используйте /admin для просмотра".

Definition notify_new_ticket (bot : option Bot) (ticket_number subject : string)
    (users : gmap Z User.t) : result (unit * list (Z * string)) :=
  match send_to_moderators bot (new_ticket_text ticket_number subject) users with
  | Ok (_, attempts) => Ok (tt, attempts)
  | Raise e => Raise e
  end.

Definition ticket_response_text (ticket_number response_preview : string)
    : string :=
  "💬 <b>Ответ на ваше обращение</b>" +:+ NL +:+ NL
    +:+ "Номер: <code>" +:+ ticket_number +:+ "</code>" +:+ NL +:+ NL
    +:+ take_chars 200 response_preview
    +:+ (if (200 <? len response_preview)%nat then "..." else "")
    +:+ NL +:+ NL +:+ "Используйте /tickets для подробностей".

(** [notify_ticket_response]: the sends attempted; it returns nothing and
    lets no exception out. *)
Definition notify_ticket_response (bot : option Bot) (user_telegram_id : Z)
    (ticket_number response_preview : string) : list (Z * string) :=
  match bot with
  | None => []
  | Some _ =>
      [(user_telegram_id, ticket_response_text ticket_number response_preview)]
  end.

End NotificationService.


(** ** The handlers that store and then notify: [confirm_ticket] of
    [app/handlers/tickets.py] and [process_admin_ticket_reply] of
    [app/handlers/admin.py] *)

Module TicketNotifications.
Import TicketService NotificationService.

(** What such a handler leaves behind: the committed tickets and messages,
    the sends attempted, and the text it answers with ([None] when it
    returns without answering). *)
Definition notified : Type :=
  (TicketService.Store * list (Z * string) * option string)%type.

Definition created_text (ticket_number : string) : string :=
  "✅ <b>Обращение создано!</b>" +:+ NL +:+ NL
    +:+ "📋 Номер: <code>" +:+ ticket_number +:+ "</code>" +:+ NL +:+ NL
    +:+ "Мы постараемся ответить как можно скорее." +:+ NL
    +:+ "Вы получите уведомление, когда появится ответ." +:+ NL +:+ NL
    +:+ "Отслеживать статус: /tickets".

(** [confirm_ticket]; an exception of [create_ticket] leaves the handler
    before anything is committed (with a bot instance [notify_new_ticket]
    raises nothing). *)
Definition confirm_ticket (bot : Bot) (user_id : Z) (subject description : string)
    (category : option string) (is_anonymous : bool) (prefix suffix : string)
    (users : gmap Z User.t) (s : TicketService.Store) : result notified :=
  match create_ticket user_id subject description category 1 is_anonymous
                      prefix suffix s with
  | Raise e => Raise e
  | Ok ((_, ticket), s') =>
      match notify_new_ticket (Some bot) (Ticket.ticket_number ticket)
                              (Ticket.subject ticket) users with
      | Raise e => Raise e
      | Ok (_, attempts) =>
          Ok (s', attempts, Some (created_text (Ticket.ticket_number ticket)))
      end
  end.

(** [process_admin_ticket_reply]: [admin_reply_ticket_id] is what the
    conversation state holds, [reply_text] the stripped text of the
    message; [ticket.user] is the row of [users] under the ticket's
    [user_id]. *)
Definition process_admin_ticket_reply (bot : Bot)
    (admin_reply_ticket_id : option Z) (reply_text : string) (user_id : Z)
    (users : gmap Z User.t) (s : TicketService.Store) : result notified :=
  if negb (truthy_int admin_reply_ticket_id) then Ok (s, [], None)
  else
    let ticket_id := default 0 admin_reply_ticket_id in
    match add_message ticket_id user_id reply_text true false s with
    | Raise e => Raise e
    | Ok (_, s') =>
        let attempts :=
          match get_ticket_by_id ticket_id s' with
          | Some ticket =>
              match users !! Ticket.user_id ticket with
              | Some user =>
                  notify_ticket_response (Some bot) (User.telegram_id user)
                                         (Ticket.ticket_number ticket) reply_text
              | None => []
              end
          | None => []
          end in
        Ok (s', attempts, Some "✅ Ответ отправлен!")
    end.

End TicketNotifications.
(** ** Sample data

    Concrete rows and stores on which the properties of Part II are
    instantiated. *)

Module Samples.

Definition ticket (st : TicketStatus) : Ticket.t :=
  Ticket.mk "T202401-0001" 7 None "Справка" "Нужна справка об обучении"
            st 1 None false None.

(** One ticket, number 1, in status [st], with its first message. *)
Definition ticket_store (st : TicketStatus) : TicketService.Store :=
  TicketService.mkStore
    {[ 1 := ticket st ]}
    [TicketMessage.mk 1 1 7 "Нужна справка об обучении" false false].

Definition empty_ticket_store : TicketService.Store :=
  TicketService.mkStore ∅ [].

Definition faq_item (views helpful not_helpful : Z) : FAQItem.t :=
  FAQItem.mk 1 "Как получить стипендию?" "Подайте заявление в деканат."
             (Some "стипендия,выплаты") None views helpful not_helpful 0 true false.

(** One FAQ item, number 1, viewed five times, and no favorites. *)
Definition faq_store : FAQService.Store :=
  FAQService.mkStore {[ 1 := faq_item 5 2 1 ]} [].

Definition user (telegram_id : Z) (role : UserRole) (group_name : string)
    (is_active notifications_enabled : bool) : User.t :=
  User.mk telegram_id None None None None (Some 2) (Some group_name) None
          (Some "ФИТ") role is_active false false notifications_enabled "ru"
          true true None.

(** Four users: two students of group 221-361, a teacher, and a student who
    switched notifications off. *)
Definition users : gmap Z User.t :=
  {[ 1 := user 1001 STUDENT "221-361" true true;
     2 := user 1002 STUDENT "221-361" true true;
     3 := user 1003 TEACHER "221-361" true true;
     4 := user 1004 STUDENT "221-361" true false ]}.

Definition notification (target_role : option string) : Notification.t :=
  Notification.mk "Сессия" "Расписание сессии опубликовано" target_role
                  (Some "221-361") None None true false 0 None None.

(** A transport on which chat 1001 has blocked the bot and chat 1003 is
    refused as a bad request. *)
Definition bot : NotificationService.Bot :=
  fun chat_id _ =>
    if Z.eqb chat_id 1001 then NotificationService.TelegramForbiddenError
    else if Z.eqb chat_id 1003 then NotificationService.TelegramBadRequest
    else NotificationService.Delivered.

(** A stand-in for [fuzz.token_set_ratio]: 100 for the query itself, 75 for
    a text that starts with the query, 20 otherwise. *)
Definition scorer (query text : string) : Q :=
  if String.eqb query text then inject_Z 100
  else if String.prefix query text then inject_Z 75
  else inject_Z 20.

Definition faq_question (question : string) (is_active : bool) : FAQItem.t :=
  FAQItem.mk 1 question "См. сайт университета." None None 0 0 0 0 is_active false.

(** The rows of [faq_items]: three active questions, two of which start
    with the word of the query below, and a hidden one. *)
Definition faq_rows : list (Z * FAQItem.t) :=
  [(1, faq_question "общежитие: как заселиться" true);
   (2, faq_question "стипендия: сроки выплат" true);
   (3, faq_question "стипендия" false);
   (4, faq_question "стипендия: как оформить" true)].

(** The dispatch of the sample notification to group 221-361 over the
    sample transport. *)
Definition dispatch
    : result (Z * (Notification.t * NotificationService.progress)) :=
  NotificationService.send_notification (Some bot) (notification None) 100 users.

End Samples.

(** ** The vocabulary of the properties

    The predicates in which Part II states what the services do. *)

Section TicketVocabulary.
Import TicketService.

(** The status a stored ticket has, [None] when there is no such ticket. *)
Definition status_of (tid : Z) (s : Store) : option TicketStatus :=
  Ticket.status <$> tickets s !! tid.

(** Every stored message belongs to a stored ticket: the foreign key of
    [ticket_messages.ticket_id]. *)
Definition messages_owned (s : Store) : Prop :=
  forall m, m ∈ messages s -> is_Some (tickets s !! TicketMessage.ticket_id m).

End TicketVocabulary.

Section CounterVocabulary.
Import FAQService.

(** The three counters of an item: views, helpful, not helpful. *)
Definition counters (it : FAQItem.t) : Z * Z * Z :=
  (FAQItem.views_count it, FAQItem.helpful_count it, FAQItem.not_helpful_count it).

(** No counter of [a] is above its counterpart in [b]. *)
Definition counters_le (a b : Z * Z * Z) : Prop :=
  fst (fst a) <= fst (fst b) /\ snd (fst a) <= snd (fst b) /\ snd a <= snd b.

Definition counter_columns : list string :=
  ["views_count"; "helpful_count"; "not_helpful_count"].

(** The keyword arguments name no counter. *)
Definition spares_counters (kwargs : list kwarg) : Prop :=
  Forall (fun k => kwarg_key k ∉ counter_columns) kwargs.

(** The operation neither deletes item [i] nor passes one of its counters
    to [update_item]. *)
Definition keeps_counters (i : Z) (o : op) : Prop :=
  match o with
  | op_delete_item j => j <> i
  | op_update_item j kwargs => j = i -> spares_counters kwargs
  | _ => True
  end.

(** The operation is a view or a rating of item [i]. *)
Definition counts_on (i : Z) (o : op) : Prop :=
  match o with
  | op_increment_view j | op_rate_item j _ => j = i
  | _ => False
  end.

End CounterVocabulary.

Section NotificationVocabulary.
Import NotificationService.

(** A user passes the group, course and faculty filters of a
    notification; a filter that is not set passes everyone. *)
Definition passes_filters (n : Notification.t) (u : User.t) : Prop :=
  (truthy_str (Notification.target_group n) = true ->
   User.group_name u = Notification.target_group n)
  /\ (truthy_int (Notification.target_course n) = true ->
      User.course u = Notification.target_course n)
  /\ (truthy_str (Notification.target_faculty n) = true ->
      User.faculty u = Notification.target_faculty n).

(** A user passes the role filter: there is none when the role is not set
    or is not the value of a role. *)
Definition passes_role (n : Notification.t) (u : User.t) : Prop :=
  truthy_str (Notification.target_role n) = true ->
  forall role,
    UserRole_of_value (default "" (Notification.target_role n)) = Some role ->
    User.role u = role.

(** Every clause of the query is true of the user. *)
Definition clauses_hold (q : query) (u : User.t) : Prop :=
  forall clause, clause ∈ q -> clause u = true.

(** The recipients whose send raised [TelegramForbiddenError]. *)
Definition forbidden (bot : Bot) (text : string) (targets : list (Z * User.t))
    : list (Z * User.t) :=
  filter (fun r => bot (User.telegram_id (snd r)) text = TelegramForbiddenError)
         targets.

End NotificationVocabulary.

(** [k] is an integer nearest to ten times [m * 2^e]: equal to it when it
    is an integer, otherwise at most half a unit away (both sides scaled by
    [2^(-e)]). *)
Definition nearest_tenths (m : positive) (e k : Z) : Prop :=
  if 0 <=? e then k = 10 * Zpos m * 2 ^ e
  else 2 * Z.abs (10 * Zpos m - k * 2 ^ (- e)) <= 2 ^ (- e).

(** [a] stands before [b] in the list. *)
Inductive before {A : Type} : list A -> A -> A -> Prop :=
| before_head (a b : A) (l : list A) : b ∈ l -> before (a :: l) a b
| before_tail (x a b : A) (l : list A) : before l a b -> before (x :: l) a b.

(** Descending order of the keys. *)
Definition desc {A : Type} (key : A -> Q) : relation A :=
  fun a b => (key b <= key a)%Q.

Module Ranking.
Section Ranking.
Context {A : Type}.
Variable text_of : A -> string.
Variable token_set_ratio : string -> string -> Q.
Variable query : string.

(** The score of a candidate for the query. *)
Definition score_of (c : Z * A) : Q :=
  token_set_ratio query (text_of (snd c)).

(** The entry of [search_data], the match and the result of a candidate. *)
Definition data_of (c : Z * A) : Z * ((Z * A) * string) :=
  (fst c, (c, text_of (snd c))).

Definition hit_of (c : Z * A) : Fuzz.hit :=
  (text_of (snd c), score_of c, fst c).

Definition scored (c : Z * A) : (Z * A) * Q := (c, score_of c).

(** At or above the threshold. *)
Definition passes (threshold : Z) (c : Z * A) : Prop :=
  Qle_bool (inject_Z threshold) (score_of c) = true.

#[global] Instance passes_dec (threshold : Z) (c : Z * A) :
  Decision (passes threshold c).
Proof. unfold passes. apply _. Defined.

(** What the specification asks of the result [res] of a search over the
    pool [items]: at most [limit] candidates, each from the pool, with its
    score, at or above the threshold, and among the [2 * limit] matches
    requested of the scorer; in descending order of score, candidates of
    equal score in the order of the pool; and no candidate left out scores
    higher than one returned. *)
Definition ranked (items : list (Z * A)) (limit : nat) (threshold : Z)
    (res : list ((Z * A) * Q)) : Prop :=
  (length res <= limit)%nat
  /\ (forall x, x ∈ res ->
         fst x ∈ items
         /\ snd x = score_of (fst x)
         /\ (inject_Z threshold <= snd x)%Q)
  /\ (length (Fuzz.extract token_set_ratio query
                           (map (fun c => (fst c, text_of (snd c))) items)
                           (limit * 2))
      = Nat.min (limit * 2) (length items)
      /\ forall x, x ∈ res ->
           hit_of (fst x)
           ∈ Fuzz.extract token_set_ratio query
                          (map (fun c => (fst c, text_of (snd c))) items)
                          (limit * 2))
  /\ (forall x y, before res x y ->
         (snd y <= snd x)%Q
         /\ ((snd x == snd y)%Q -> before items (fst x) (fst y)))
  /\ (forall c, c ∈ items -> scored c ∉ res ->
         forall x, x ∈ res -> (score_of c <= snd x)%Q).

End Ranking.
End Ranking.


(** ** Vocabulary of the further properties *)

Section FAQVocabulary.
Import FAQService.

(** The operation is a view of item [i]; it is a rating of item [i] with
    the given flag. *)
Definition is_view (i : Z) (o : op) : bool :=
  match o with
  | op_increment_view j => Z.eqb j i
  | _ => false
  end.

Definition is_rating (i : Z) (helpful : bool) (o : op) : bool :=
  match o with
  | op_rate_item j h => Z.eqb j i && Bool.eqb h helpful
  | _ => false
  end.

(** How many operations of a sequence satisfy [p]. *)
Definition occurrences (p : op -> bool) (ops : list op) : Z :=
  Z.of_nat (length (List.filter p ops)).

(** The (user, item) pair of a favorite, the key of the unique index
    [ix_user_favorites_unique]. *)
Definition favorite_pair (f : UserFavorite.t) : Z * Z :=
  (UserFavorite.user_id f, UserFavorite.faq_item_id f).

(** What the database guarantees of [user_favorites]: the primary key and
    the unique index on (user, item). *)
Definition favorites_consistent (s : Store) : Prop :=
  NoDup (map UserFavorite.id (favorites s))
  /\ NoDup (map favorite_pair (favorites s)).

End FAQVocabulary.

Section SearchVocabulary.
Context {A : Type}.
Variable text_of : A -> string.
Variable token_set_ratio : string -> string -> Q.
Variable query : string.

(** The candidates of the pool at or above the threshold, in the order of
    the pool. *)
Definition matching (threshold : Z) (items : list (Z * A)) : list (Z * A) :=
  filter (Ranking.passes text_of token_set_ratio query threshold) items.

(** The result [res] of a search over the pool [items] leaves out no match
    it has room for: it holds [limit] candidates, or all the matching ones
    when they are fewer, and then each of them. *)
Definition complete (items : list (Z * A)) (limit : nat) (threshold : Z)
    (res : list ((Z * A) * Q)) : Prop :=
  length res = Nat.min limit (length (matching threshold items))
  /\ ((length (matching threshold items) <= limit)%nat ->
      forall c, c ∈ matching threshold items ->
                Ranking.scored text_of token_set_ratio query c ∈ res)
  /\ (res = [] <-> limit = 0%nat \/ matching threshold items = []).

End SearchVocabulary.
(* ================================================================== *)
(** * Part II: the properties *)
(* ================================================================== *)

(** ** Keys of a table *)

(** A fresh key is above every key in use. *)
Lemma fresh_key_above {V : Type} (m : gmap Z V) (k : Z) (v : V) :
  m !! k = Some v -> k < fresh_key m.
Proof.
  unfold fresh_key.
  enough (H : forall k v, m !! k = Some v ->
                          k <= map_fold (fun k _ acc => Z.max k acc) 0 m).
  { intros Hk. specialize (H _ _ Hk). lia. }
  clear k v.
  apply (map_fold_weak_ind
           (fun r (m : gmap Z V) => forall k v, m !! k = Some v -> k <= r)).
  - intros k v Hk. rewrite lookup_empty in Hk. discriminate.
  - intros i x m' r _ IH k v Hk.
    destruct (decide (i = k)) as [->|Hne].
    + lia.
    + rewrite lookup_insert_ne in Hk by done. specialize (IH _ _ Hk). lia.
Qed.

Lemma fresh_key_None {V : Type} (m : gmap Z V) : m !! fresh_key m = None.
Proof.
  destruct (m !! fresh_key m) as [v|] eqn:E; [|done].
  apply fresh_key_above in E. lia.
Qed.

(** ** Strings *)

Lemma append_empty_r (s : string) : s +:+ "" = s.
Proof.
  induction s as [|a s IH]; [reflexivity|].
  change (String a (s +:+ "") = String a s). by rewrite IH.
Qed.

(** ** Lists *)

Lemma filter_none {A : Type} (P : A -> Prop) `{forall x, Decision (P x)}
    (l : list A) :
  (forall x, x ∈ l -> ~ P x) -> filter P l = [].
Proof.
  induction l as [|a l IH]; intros Hl; [reflexivity|].
  rewrite filter_cons_False by (apply Hl; left).
  apply IH. intros x Hx. apply Hl. by right.
Qed.

(** ** The ticket workflow *)

Section TicketWorkflow.
Import TicketService TicketKeyboards TicketHandlers.

(** The message log of a ticket after a row is appended to the table. *)
Lemma message_log_snoc (tid : Z) (tk : gmap Z Ticket.t)
    (ms : list TicketMessage.t) (m : TicketMessage.t) :
  message_log tid (mkStore tk (ms ++ [m]))
  = message_log tid (mkStore tk ms)
      ++ (if decide (TicketMessage.ticket_id m = tid) then [m] else []).
Proof.
  unfold message_log. simpl. rewrite filter_app. reflexivity.
Qed.

Lemma status_in_resolved_closed (st : TicketStatus) :
  status_in st [RESOLVED; CLOSED] = true <-> st = RESOLVED \/ st = CLOSED.
Proof. destruct st; simpl; split; intros H; try done; auto; destruct H; done. Qed.

(** What [update_status] does to a stored ticket, in one equation. *)
Lemma update_status_found (s : Store) (tid : Z) (t : Ticket.t)
    (new : TicketStatus) (uid : Z) (c : option string) (now : Z) :
  tickets s !! tid = Some t ->
  update_status tid new uid c now s
  = Ok (Some (Ticket.mk (Ticket.ticket_number t) (Ticket.user_id t)
                        (Ticket.assigned_to_id t) (Ticket.subject t)
                        (Ticket.description t) new (Ticket.priority t)
                        (Ticket.category t) (Ticket.is_anonymous t)
                        (if status_in new [RESOLVED; CLOSED]
                         then Some now else Ticket.resolved_at t)),
        mkStore
          (<[tid := Ticket.mk (Ticket.ticket_number t) (Ticket.user_id t)
                        (Ticket.assigned_to_id t) (Ticket.subject t)
                        (Ticket.description t) new (Ticket.priority t)
                        (Ticket.category t) (Ticket.is_anonymous t)
                        (if status_in new [RESOLVED; CLOSED]
                         then Some now else Ticket.resolved_at t)]> (tickets s))
          (messages s
             ++ [TicketMessage.mk (next_message_id s) tid uid
                   (status_message (Ticket.status t) new c) true false])).
Proof.
  intros Ht. unfold update_status. rewrite Ht.
  destruct (status_in new [RESOLVED; CLOSED]); reflexivity.
Qed.

(** [update_status] sets any status on a stored ticket. *)
Lemma update_status_sets (s : Store) (tid : Z) (t : Ticket.t)
    (new : TicketStatus) (uid : Z) (c : option string) (now : Z) :
  tickets s !! tid = Some t ->
  exists t' s',
    update_status tid new uid c now s = Ok (Some t', s')
    /\ tickets s' !! tid = Some t'
    /\ Ticket.status t' = new.
Proof.
  intros Ht. rewrite (update_status_found _ _ _ _ _ _ _ Ht).
  eexists _, _. split; [reflexivity|]. simpl.
  rewrite lookup_insert_eq. split; reflexivity.
Qed.

(** The reopen button is on the keyboard exactly for a [RESOLVED] ticket. *)
Lemma reopen_button_iff (tid : Z) (t : Ticket.t) (is_staff : bool) :
  ticket_reopen tid ∈ callbacks (ticket_actions tid t is_staff)
  <-> Ticket.status t = RESOLVED.
Proof.
  unfold callbacks, ticket_actions.
  destruct (Ticket.status t), is_staff; simpl; split; intros H;
    try reflexivity; try discriminate;
    repeat (apply elem_of_cons in H as [H|H]; [discriminate H|]);
    try (by apply elem_of_nil in H);
    set_solver.
Qed.

(** C1, as the code has it: [update_status] checks no transition and sets
    whatever status it is given on any stored ticket, [OPEN] on a [CLOSED]
    one included.  The restriction of reopening to [RESOLVED] tickets is in
    the keyboards: [ticket_actions] shows the reopen button exactly on a
    [RESOLVED] ticket, and the status menu of the staff never offers
    [OPEN]. *)
Theorem C1_transitions_gated_by_keyboards (s : Store) (tid : Z) (t : Ticket.t) :
  tickets s !! tid = Some t ->
  (forall new uid c now,
      exists t' s',
        update_status tid new uid c now s = Ok (Some t', s')
        /\ tickets s' !! tid = Some t'
        /\ Ticket.status t' = new)
  /\ (forall is_staff,
         ticket_reopen tid ∈ callbacks (ticket_actions tid t is_staff)
         <-> Ticket.status t = RESOLVED)
  /\ ticket_set_status tid OPEN ∉ callbacks (status_change tid).
Proof.
  intros Ht. split; [|split].
  - intros new uid c now. by apply (update_status_sets s tid t).
  - intros is_staff. apply reopen_button_iff.
  - unfold callbacks, status_change. simpl. intros H.
    repeat (apply elem_of_cons in H as [H|H]; [discriminate H|]).
    by apply elem_of_nil in H.
Qed.

Lemma C1_transitions_gated_by_keyboards_witness :
  TicketService.tickets (Samples.ticket_store CLOSED) !! 1
  = Some (Samples.ticket CLOSED)
  /\ (ticket_reopen 1
        ∈ callbacks (ticket_actions 1 (Samples.ticket CLOSED) false)
      <-> Ticket.status (Samples.ticket CLOSED) = RESOLVED)
  /\ exists t' s',
       update_status 1 IN_PROGRESS 9 None 100 (Samples.ticket_store CLOSED)
       = Ok (Some t', s')
       /\ tickets s' !! 1 = Some t'
       /\ Ticket.status t' = IN_PROGRESS.
Proof.
  split; [reflexivity|].
  destruct (C1_transitions_gated_by_keyboards
              (Samples.ticket_store CLOSED) 1 (Samples.ticket CLOSED) eq_refl)
    as (Hset & Hbutton & _).
  split; [apply Hbutton|apply Hset].
Defined.

(** C1, refuted as stated: a [CLOSED] ticket goes back to [OPEN], through
    [update_status] and through the reopen handler, and its status is not
    left unchanged. *)
Lemma C1_closed_ticket_reopens :
  status_of 1 (Samples.ticket_store CLOSED) = Some CLOSED
  /\ (exists t' s',
         update_status 1 OPEN 7 None 100 (Samples.ticket_store CLOSED)
         = Ok (Some t', s')
         /\ Ticket.status t' = OPEN
         /\ status_of 1 s' = Some OPEN)
  /\ status_of 1 (fst (reopen_ticket 1 7 100 (Samples.ticket_store CLOSED)))
     = Some OPEN.
Proof.
  split; [reflexivity|]. split.
  - eexists _, _. split; [reflexivity|]. split; reflexivity.
  - reflexivity.
Qed.

(** C2: on a stored ticket, [update_status] appends exactly one message to
    the log of that ticket and none to another log.  The message is written
    by the acting user as a visible staff message, and its body is the old
    status, the arrow and the new status, followed by the comment when a
    non-empty one is given.  The call stamps [resolved_at] with the current
    time when the new status is [RESOLVED] or [CLOSED], and does not touch
    it otherwise; so a ticket not resolved before has a resolution time
    afterwards exactly in these two cases. *)
Theorem C2_update_status_logs_transition (s : Store) (tid : Z) (t : Ticket.t)
    (new : TicketStatus) (uid : Z) (c : option string) (now : Z) :
  tickets s !! tid = Some t ->
  exists t' s' m,
    update_status tid new uid c now s = Ok (Some t', s')
    /\ tickets s' !! tid = Some t'
    /\ Ticket.status t' = new
    /\ messages s' = messages s ++ [m]
    /\ message_log tid s' = message_log tid s ++ [m]
    /\ (forall other, other <> tid -> message_log other s' = message_log other s)
    /\ TicketMessage.user_id m = uid
    /\ TicketMessage.is_from_staff m = true
    /\ TicketMessage.is_internal m = false
    /\ TicketMessage.message m
       = ("Статус изменён: " +:+ TicketStatus_value (Ticket.status t) +:+ " → "
            +:+ TicketStatus_value new)
           +:+ (match c with
                | Some text =>
                    if String.eqb text "" then ""
                    else NL +:+ NL +:+ "Комментарий: " +:+ text
                | None => ""
                end)
    /\ (new = RESOLVED \/ new = CLOSED -> Ticket.resolved_at t' = Some now)
    /\ (~ (new = RESOLVED \/ new = CLOSED) ->
        Ticket.resolved_at t' = Ticket.resolved_at t)
    /\ (Ticket.resolved_at t = None ->
        (is_Some (Ticket.resolved_at t') <-> new = RESOLVED \/ new = CLOSED)).
Proof.
  intros Ht. rewrite (update_status_found _ _ _ _ _ _ _ Ht).
  eexists _, _, _. split; [reflexivity|]. simpl.
  pose proof (status_in_resolved_closed new) as Hin.
  split_and!; try reflexivity.
  - by rewrite lookup_insert_eq.
  - destruct s as [tk ms]. rewrite message_log_snoc. simpl.
    by rewrite decide_True.
  - intros other Hne. destruct s as [tk ms]. rewrite message_log_snoc. simpl.
    rewrite decide_False by done. by rewrite app_nil_r.
  - unfold status_message, truthy_str. destruct c as [text|]; simpl.
    + destruct (String.eqb text ""); simpl; [|reflexivity].
      by rewrite append_empty_r.
    + by rewrite append_empty_r.
  - intros H. apply Hin in H. by rewrite H.
  - intros H. destruct (status_in new [RESOLVED; CLOSED]); [|reflexivity].
    exfalso. apply H, Hin. reflexivity.
  - intros Hnone. split.
    + intros [x Hx]. destruct (status_in new [RESOLVED; CLOSED]) eqn:E.
      * by apply Hin.
      * congruence.
    + intros H. apply Hin in H. rewrite H. by eexists.
Qed.

Lemma C2_update_status_logs_transition_witness :
  tickets (Samples.ticket_store OPEN) !! 1 = Some (Samples.ticket OPEN)
  /\ exists t' s' m,
       update_status 1 RESOLVED 9 (Some "Готово") 100 (Samples.ticket_store OPEN)
       = Ok (Some t', s')
       /\ message_log 1 s' = message_log 1 (Samples.ticket_store OPEN) ++ [m]
       /\ TicketMessage.message m
          = "Статус изменён: open → resolved" +:+ NL +:+ NL +:+ "Комментарий: Готово"
       /\ Ticket.resolved_at t' = Some 100.
Proof.
  split; [reflexivity|].
  destruct (C2_update_status_logs_transition
              (Samples.ticket_store OPEN) 1 (Samples.ticket OPEN)
              RESOLVED 9 (Some "Готово") 100 eq_refl)
    as (t' & s' & m & Hrun & _ & _ & _ & Hlog & _ & _ & _ & _ & Hbody & Hres & _).
  exists t', s', m. repeat split; [exact Hrun|exact Hlog|exact Hbody|].
  apply Hres. by left.
Defined.

(** C4, as the code has it: on an id that names no ticket, [update_status]
    and [assign_ticket] return [None] without raising and leave the store
    as it was.  [add_message] has no such outcome of its own; the handler
    of a requester's reply looks the ticket up first, answers that the
    ticket was not found and never calls it. *)
Theorem C4_missing_ticket_is_absent (s : Store) (tid : Z) :
  tickets s !! tid = None ->
  (forall new uid c now, update_status tid new uid c now s = Ok (None, s))
  /\ (forall assignee, assign_ticket tid assignee s = Ok (None, s))
  /\ (forall text role uid,
         tid <> 0 -> (2 <= len text)%nat ->
         process_ticket_reply (Some tid) text role uid s
         = (s, Some "❌ Обращение не найдено")).
Proof.
  intros Hnone. split_and!.
  - intros. unfold update_status. by rewrite Hnone.
  - intros. unfold assign_ticket. by rewrite Hnone.
  - intros text role uid Hne Hlen. unfold process_ticket_reply, truthy_int.
    simpl. rewrite (proj2 (Z.eqb_neq tid 0) Hne). simpl.
    destruct (len text <? 2)%nat eqn:E.
    + apply Nat.ltb_lt in E. lia.
    + by rewrite Hnone.
Qed.

Lemma C4_missing_ticket_is_absent_witness :
  tickets Samples.empty_ticket_store !! 7 = None
  /\ update_status 7 CLOSED 9 None 100 Samples.empty_ticket_store
     = Ok (None, Samples.empty_ticket_store).
Proof.
  split; [reflexivity|].
  apply (C4_missing_ticket_is_absent Samples.empty_ticket_store 7).
  reflexivity.
Defined.

(** C4, refuted as stated: on an id that names no ticket, [add_message]
    returns a message, not an absent outcome, and stores it as a new row
    that belongs to no ticket. *)
Lemma C4_add_message_stores_orphan :
  tickets Samples.empty_ticket_store !! 7 = None
  /\ add_message 7 3 "Есть новости?" false false Samples.empty_ticket_store
     = Ok (TicketMessage.mk 1 7 3 "Есть новости?" false false,
           mkStore ∅ [TicketMessage.mk 1 7 3 "Есть новости?" false false])
  /\ messages Samples.empty_ticket_store = [].
Proof. split_and!; reflexivity. Qed.

(** [number_taken] decides whether a stored ticket carries the number. *)
Lemma number_taken_false (number : string) (s : Store) :
  number_taken number s = false
  <-> forall k t, tickets s !! k = Some t -> Ticket.ticket_number t <> number.
Proof.
  unfold number_taken. split.
  - intros H k t Hk Heq.
    assert (Hex : existsb (fun kv => String.eqb (Ticket.ticket_number (snd kv)) number)
                          (map_to_list (tickets s)) = true).
    { apply existsb_exists. exists (k, t). split.
      - apply list_elem_of_In. by apply elem_of_map_to_list.
      - simpl. by apply String.eqb_eq. }
    congruence.
  - intros H. apply not_true_is_false. intros Hex.
    apply existsb_exists in Hex as [[k t] [Hin Heq]].
    apply list_elem_of_In, elem_of_map_to_list in Hin.
    apply String.eqb_eq in Heq. by apply (H k t).
Qed.



End TicketWorkflow.

(** ** Counters of an FAQ item *)

Section FAQCounters.
Import FAQService.

Lemma counters_le_refl (a : Z * Z * Z) : counters_le a a.
Proof. unfold counters_le. lia. Qed.

Lemma counters_le_trans (a b c : Z * Z * Z) :
  counters_le a b -> counters_le b c -> counters_le a c.
Proof. unfold counters_le. lia. Qed.

(** A keyword that names no counter leaves the counters alone. *)
Lemma setattr_counters (it : FAQItem.t) (k : kwarg) :
  kwarg_key k ∉ counter_columns -> counters (setattr it k) = counters it.
Proof.
  intros Hk. destruct it, k; try reflexivity;
    exfalso; apply Hk; unfold counter_columns; simpl; by repeat constructor.
Qed.

Lemma fold_setattr_counters (kwargs : list kwarg) (it : FAQItem.t) :
  spares_counters kwargs -> counters (fold_left setattr kwargs it) = counters it.
Proof.
  revert it. induction kwargs as [|k kwargs IH]; intros it Hs; [reflexivity|].
  inversion Hs as [|? ? Hk Hrest]; subst. simpl.
  rewrite IH by assumption. by apply setattr_counters.
Qed.

(** One operation on a store that holds item [i]. *)
Lemma step_counters (s : Store) (i : Z) (it : FAQItem.t) (o : op) :
  items s !! i = Some it ->
  keeps_counters i o ->
  exists it',
    items (step s o) !! i = Some it'
    /\ counters_le (counters it) (counters it')
    /\ (~ counts_on i o -> counters it' = counters it).
Proof.
  intros Hi Hkeep. destruct o as [c q a k l ord|j kw|j|j|j h|u j|u j]; simpl.
  - exists it. split_and!; [|apply counters_le_refl|done].
    rewrite lookup_insert_ne; [done|].
    intros Heq. pose proof (fresh_key_None (items s)) as Hf. congruence.
  - unfold update_item. destruct (items s !! j) as [jt|] eqn:Hj; simpl.
    + destruct (decide (j = i)) as [->|Hne].
      * rewrite Hi in Hj. injection Hj as <-.
        exists (fold_left setattr kw it). rewrite lookup_insert_eq.
        simpl in Hkeep. rewrite (fold_setattr_counters kw it (Hkeep eq_refl)).
        split_and!; [done|apply counters_le_refl|done].
      * exists it. rewrite lookup_insert_ne by done.
        split_and!; [done|apply counters_le_refl|done].
    + exists it. split_and!; [done|apply counters_le_refl|done].
  - unfold delete_item. simpl in Hkeep.
    destruct (items s !! j) as [jt|] eqn:Hj; simpl.
    + exists it. rewrite lookup_delete_ne by done.
      split_and!; [done|apply counters_le_refl|done].
    + exists it. split_and!; [done|apply counters_le_refl|done].
  - destruct (decide (j = i)) as [->|Hne].
    + eexists. rewrite lookup_alter_eq, Hi. simpl. split_and!; [reflexivity| |].
      * unfold counters_le, counters. simpl. lia.
      * intros Hn. exfalso. by apply Hn.
    + exists it. rewrite lookup_alter_ne by done.
      split_and!; [done|apply counters_le_refl|done].
  - destruct (decide (j = i)) as [->|Hne].
    + destruct h; simpl; eexists; rewrite lookup_alter_eq, Hi; simpl;
        (split_and!; [reflexivity| |]);
        try (unfold counters_le, counters; simpl; lia);
        intros Hn; exfalso; by apply Hn.
    + exists it. destruct h; simpl; rewrite lookup_alter_ne by done;
        (split_and!; [done|apply counters_le_refl|done]).
  - exists it. unfold add_to_favorites.
    destruct (scalar_one_or_none _) as [[f|]|e]; simpl;
      (split_and!; [done|apply counters_le_refl|done]).
  - exists it. unfold remove_from_favorites.
    destruct (scalar_one_or_none _) as [[f|]|e]; simpl;
      (split_and!; [done|apply counters_le_refl|done]).
Qed.

(** A sequence of operations on a store that holds item [i]. *)
Lemma run_counters (ops : list op) (s : Store) (i : Z) (it : FAQItem.t) :
  items s !! i = Some it ->
  Forall (keeps_counters i) ops ->
  exists it',
    items (run ops s) !! i = Some it'
    /\ counters_le (counters it) (counters it').
Proof.
  revert s it. induction ops as [|o ops IH]; intros s it Hi Hops.
  - exists it. split; [done|apply counters_le_refl].
  - inversion Hops as [|? ? Ho Hrest]; subst.
    destruct (step_counters s i it o Hi Ho) as (it1 & H1 & Hle1 & _).
    destruct (IH (step s o) it1 H1 Hrest) as (it' & H' & Hle').
    exists it'. split; [exact H'|]. by apply (counters_le_trans _ (counters it1)).
Qed.

(** C8, as the code has it: on a stored item, [increment_view] adds exactly
    1 to [views_count], and [rate_item] adds exactly 1 to [helpful_count] or
    to [not_helpful_count] by its flag, each leaving the other counters as
    they were.  Every other operation that neither deletes the item nor
    passes one of its counters to [update_item] leaves the three counters
    unchanged, and over every sequence of operations of which none deletes
    the item or passes one of its counters to [update_item], the item stays
    stored and no counter decreases. *)
Theorem C8_counters_move_by_views_and_ratings (s : Store) (i : Z) (it : FAQItem.t) :
  items s !! i = Some it ->
  (exists it',
      items (step s (op_increment_view i)) !! i = Some it'
      /\ counters it'
         = (FAQItem.views_count it + 1, FAQItem.helpful_count it,
            FAQItem.not_helpful_count it))
  /\ (exists it',
         items (step s (op_rate_item i true)) !! i = Some it'
         /\ counters it'
            = (FAQItem.views_count it, FAQItem.helpful_count it + 1,
               FAQItem.not_helpful_count it))
  /\ (exists it',
         items (step s (op_rate_item i false)) !! i = Some it'
         /\ counters it'
            = (FAQItem.views_count it, FAQItem.helpful_count it,
               FAQItem.not_helpful_count it + 1))
  /\ (forall o,
         keeps_counters i o -> ~ counts_on i o ->
         exists it',
           items (step s o) !! i = Some it' /\ counters it' = counters it)
  /\ (forall ops,
         Forall (keeps_counters i) ops ->
         exists it',
           items (run ops s) !! i = Some it'
           /\ counters_le (counters it) (counters it')).
Proof.
  intros Hi. split_and!.
  - eexists. simpl. rewrite lookup_alter_eq, Hi. simpl. split; reflexivity.
  - eexists. simpl. rewrite lookup_alter_eq, Hi. simpl. split; reflexivity.
  - eexists. simpl. rewrite lookup_alter_eq, Hi. simpl. split; reflexivity.
  - intros o Hkeep Hn.
    destruct (step_counters s i it o Hi Hkeep) as (it' & H' & _ & Heq).
    exists it'. split; [exact H'|]. by apply Heq.
  - intros ops Hops. by apply (run_counters ops s i it).
Qed.

Lemma C8_counters_move_by_views_and_ratings_witness :
  items Samples.faq_store !! 1 = Some (Samples.faq_item 5 2 1)
  /\ exists it',
       items (run [op_increment_view 1; op_rate_item 1 true;
                   op_update_item 1 [kw_question "Где получить стипендию?"];
                   op_add_to_favorites 4 1]
                  Samples.faq_store) !! 1 = Some it'
       /\ counters_le (5, 2, 1) (counters it').
Proof.
  split; [reflexivity|].
  apply (C8_counters_move_by_views_and_ratings
           Samples.faq_store 1 (Samples.faq_item 5 2 1) eq_refl).
  constructor; [exact I|]. constructor; [exact I|]. constructor.
  - intros _. constructor; [|constructor]. simpl. unfold counter_columns.
    intros H. repeat (apply elem_of_cons in H as [H|H]; [discriminate H|]).
    by apply elem_of_nil in H.
  - constructor; [exact I|constructor].
Defined.

(** C8, refuted as stated: [update_item] is not a view or a rating, and it
    takes the views of an item from 5 down to 0. *)
Lemma C8_update_item_resets_views :
  FAQItem.views_count <$> items Samples.faq_store !! 1 = Some 5
  /\ FAQItem.views_count
       <$> items (step Samples.faq_store (op_update_item 1 [kw_views_count 0])) !! 1
     = Some 0.
Proof. split; reflexivity. Qed.

End FAQCounters.

(** ** Favorites *)

Section Favorites.
Import FAQService.

Lemma fresh_row_id_above (ids : list Z) (x : Z) :
  x ∈ ids -> x < fresh_row_id ids.
Proof.
  unfold fresh_row_id. induction ids as [|y ids IH]; intros Hx.
  - by apply elem_of_nil in Hx.
  - simpl. apply elem_of_cons in Hx as [->|Hx]; [lia|].
    specialize (IH Hx). lia.
Qed.

Lemma filter_all {A : Type} (P : A -> Prop) `{forall x, Decision (P x)}
    (l : list A) :
  (forall x, x ∈ l -> P x) -> filter P l = l.
Proof.
  induction l as [|a l IH]; intros Hl; [reflexivity|].
  rewrite filter_cons_True by (apply Hl; left).
  f_equal. apply IH. intros x Hx. apply Hl. by right.
Qed.

(** C9: for a pair that is not a favorite, the first [add_to_favorites]
    returns [True] and stores one row for the pair; a second one returns
    [False] and stores nothing.  [remove_from_favorites] then returns
    [True] and deletes the row, which takes the store back to where it
    started, and a second removal returns [False] without raising and
    changes nothing. *)
Theorem C9_favorites_add_and_remove_twice (s : Store) (u i : Z) :
  select_favorite u i s = [] ->
  exists f s1,
    add_to_favorites u i s = Ok (true, s1)
    /\ favorites s1 = favorites s ++ [f]
    /\ UserFavorite.user_id f = u
    /\ UserFavorite.faq_item_id f = i
    /\ is_favorite u i s1 = Ok true
    /\ add_to_favorites u i s1 = Ok (false, s1)
    /\ remove_from_favorites u i s1 = Ok (true, s)
    /\ is_favorite u i s = Ok false
    /\ remove_from_favorites u i s = Ok (false, s).
Proof.
  intros Hnone.
  set (f := UserFavorite.mk (fresh_row_id (map UserFavorite.id (favorites s))) u i).
  assert (Hsel : select_favorite u i (mkStore (items s) (favorites s ++ [f])) = [f]).
  { unfold select_favorite in *. simpl. rewrite filter_app, Hnone. simpl.
    rewrite filter_cons_True by done. reflexivity. }
  exists f, (mkStore (items s) (favorites s ++ [f])).
  split_and!; try reflexivity.
  - unfold add_to_favorites. by rewrite Hnone.
  - unfold is_favorite. rewrite Hsel. reflexivity.
  - unfold add_to_favorites. by rewrite Hsel.
  - unfold remove_from_favorites. rewrite Hsel. simpl.
    rewrite filter_app. rewrite filter_cons_False by (simpl; intros Hn; by apply Hn).
    rewrite filter_nil, app_nil_r.
    rewrite filter_all; [by destruct s|].
    intros x Hx. simpl.
    assert (UserFavorite.id x < fresh_row_id (map UserFavorite.id (favorites s))).
    { apply fresh_row_id_above. apply list_elem_of_fmap. by exists x. }
    lia.
  - unfold is_favorite. by rewrite Hnone.
  - unfold remove_from_favorites. by rewrite Hnone.
Qed.

Lemma C9_favorites_add_and_remove_twice_witness :
  select_favorite 4 1 Samples.faq_store = []
  /\ exists f s1,
       add_to_favorites 4 1 Samples.faq_store = Ok (true, s1)
       /\ favorites s1 = [f]
       /\ add_to_favorites 4 1 s1 = Ok (false, s1)
       /\ remove_from_favorites 4 1 s1 = Ok (true, Samples.faq_store)
       /\ remove_from_favorites 4 1 Samples.faq_store
          = Ok (false, Samples.faq_store).
Proof.
  split; [reflexivity|].
  destruct (C9_favorites_add_and_remove_twice Samples.faq_store 4 1 eq_refl)
    as (f & s1 & Hadd & Hfav & _ & _ & _ & Hadd2 & Hrem & _ & Hrem2).
  exists f, s1. split_and!; assumption.
Defined.

End Favorites.

(** ** Notifications *)

Section Notifications.
Import NotificationService.

(** The rows a query returns. *)
Lemma elem_of_execute (q : query) (users : gmap Z User.t) (k : Z) (u : User.t) :
  (k, u) ∈ execute q users <-> users !! k = Some u /\ clauses_hold q u.
Proof.
  unfold execute, clauses_hold.
  rewrite list_elem_of_filter, elem_of_map_to_list. simpl.
  rewrite forallb_forall. split; intros [H1 H2]; split; try done.
  - intros c Hc. apply H1. by apply list_elem_of_In.
  - intros c Hc. apply H2. by apply list_elem_of_In.
Qed.

Lemma clauses_hold_snoc (q : query) (c : User.t -> bool) (u : User.t) :
  clauses_hold (q ++ [c]) u <-> clauses_hold q u /\ c u = true.
Proof.
  unfold clauses_hold. split.
  - intros H. split; [intros c' Hc'|]; apply H; set_solver.
  - intros [Hq Hc] c' Hc'. apply elem_of_app in Hc' as [Hc'|Hc'].
    + by apply Hq.
    + apply list_elem_of_singleton in Hc' as ->. exact Hc.
Qed.

Lemma clauses_hold_base (u : User.t) :
  clauses_hold [User.is_active; User.notifications_enabled] u
  <-> User.is_active u = true /\ User.notifications_enabled u = true.
Proof.
  unfold clauses_hold. split.
  - intros H. split; apply H; set_solver.
  - intros [Ha Hn] c Hc.
    apply elem_of_cons in Hc as [->|Hc]; [exact Ha|].
    apply list_elem_of_singleton in Hc as ->. exact Hn.
Qed.

(** The users a notification targets. *)
Lemma elem_of_get_target_users (n : Notification.t) (users : gmap Z User.t)
    (k : Z) (u : User.t) :
  (k, u) ∈ get_target_users n users
  <-> users !! k = Some u
      /\ User.is_active u = true
      /\ User.notifications_enabled u = true
      /\ passes_role n u
      /\ passes_filters n u.
Proof.
  unfold get_target_users, passes_role, passes_filters.
  rewrite elem_of_execute.
  destruct (truthy_str (Notification.target_role n));
    [destruct (UserRole_of_value _) as [role|]|];
    destruct (truthy_str (Notification.target_group n));
    destruct (truthy_int (Notification.target_course n));
    destruct (truthy_str (Notification.target_faculty n));
    rewrite ?clauses_hold_snoc, clauses_hold_base, ?bool_decide_eq_true;
    naive_solver.
Qed.

(** C10: when [target_role] is a string that is not the value of a role,
    the conversion error is swallowed and no role filter is applied: the
    users targeted are those targeted without a role, the active users with
    notifications enabled who pass the group, course and faculty filters. *)
Theorem C10_invalid_role_drops_filter (n : Notification.t)
    (users : gmap Z User.t) (r : string) :
  Notification.target_role n = Some r ->
  UserRole_of_value r = None ->
  get_target_users n users
  = get_target_users (Notification.set_target_role n None) users
  /\ forall k u,
       (k, u) ∈ get_target_users n users
       <-> users !! k = Some u
           /\ User.is_active u = true
           /\ User.notifications_enabled u = true
           /\ passes_filters n u.
Proof.
  intros Hr Hbad. split.
  - unfold get_target_users. rewrite Hr. simpl. rewrite Hbad.
    by destruct (negb (String.eqb r "")).
  - intros k u. rewrite elem_of_get_target_users.
    unfold passes_role. rewrite Hr. simpl. rewrite Hbad. naive_solver.
Qed.

Lemma C10_invalid_role_drops_filter_witness :
  Notification.target_role (Samples.notification (Some "dean")) = Some "dean"
  /\ UserRole_of_value "dean" = None
  /\ get_target_users (Samples.notification (Some "dean")) Samples.users
     = get_target_users (Samples.notification None) Samples.users.
Proof.
  split; [reflexivity|]. split; [reflexivity|].
  apply (C10_invalid_role_drops_filter
           (Samples.notification (Some "dean")) Samples.users "dean");
    reflexivity.
Defined.

(** One pass of the loop of [send_notification]. *)
Lemma send_one_spec (bot : Bot) (text : string) (p : progress)
    (r : Z * User.t) :
  sent_count (send_one bot text p r)
  = sent_count p
      + (if decide (bot (User.telegram_id (snd r)) text = Delivered) then 1 else 0)
  /\ attempts (send_one bot text p r)
     = attempts p ++ [(User.telegram_id (snd r), text)]
  /\ users (send_one bot text p r)
     = if decide (bot (User.telegram_id (snd r)) text = TelegramForbiddenError)
       then alter (fun u => User.set_is_active u false) (fst r) (users p)
       else users p.
Proof.
  unfold send_one. destruct (bot (User.telegram_id (snd r)) text); simpl;
    split_and!; try reflexivity; lia.
Qed.

(** The loop of [send_notification], from any state. *)
Lemma send_loop (bot : Bot) (text : string) (targets : list (Z * User.t))
    (p0 : progress) :
  sent_count (fold_left (send_one bot text) targets p0)
  = sent_count p0 + Z.of_nat (length targets)
      - Z.of_nat (length (failed bot text targets))
  /\ attempts (fold_left (send_one bot text) targets p0)
     = attempts p0 ++ map (fun r => (User.telegram_id (snd r), text)) targets
  /\ forall k,
       users (fold_left (send_one bot text) targets p0) !! k
       = if decide (k ∈ map fst (forbidden bot text targets))
         then (fun u => User.set_is_active u false) <$> users p0 !! k
         else users p0 !! k.
Proof.
  revert p0. induction targets as [|r targets IH]; intros p0.
  - simpl. split_and!; [lia|by rewrite app_nil_r|reflexivity].
  - cbn [fold_left].
    destruct (IH (send_one bot text p0 r)) as (Hc & Ha & Hu).
    destruct (send_one_spec bot text p0 r) as (Hc1 & Ha1 & Hu1).
    rewrite Hc, Ha. split_and!.
    + rewrite Hc1. unfold failed. rewrite filter_cons. cbn [length].
      repeat case_decide; cbn [length]; try congruence; lia.
    + rewrite Ha1, <- app_assoc. reflexivity.
    + intros k. rewrite Hu, Hu1. unfold forbidden. rewrite filter_cons.
      destruct (decide (bot (User.telegram_id (snd r)) text = TelegramForbiddenError))
        as [Hf|Hf]; [|reflexivity].
      cbn [map]. destruct (decide (k = fst r)) as [->|Hne].
      * rewrite lookup_alter_eq.
        rewrite (decide_True (P := fst r ∈ fst r :: _)) by (by left).
        destruct (decide (fst r ∈ _)); [|reflexivity].
        by destruct (users p0 !! fst r).
      * rewrite lookup_alter_ne by done.
        destruct (decide (k ∈ map fst _)) as [Hin|Hnin].
        -- rewrite decide_True; [reflexivity|by right].
        -- rewrite decide_False; [reflexivity|].
           intros Hin. apply elem_of_cons in Hin as [?|?]; done.
Qed.

(** C5, as the code has it: without a bot instance [send_notification]
    raises [ValueError] and does nothing else.  With one, it sends to every
    resolved recipient in turn, whatever the earlier sends did, and returns
    one number, the count of sends that succeeded: the [N] recipients less
    the [M] whose send raised (it returns no count of failures).  It marks
    inactive the recipients whose send raised [TelegramForbiddenError], the
    users who blocked the bot, and leaves every other user as stored, those
    whose send failed in another way included. *)
Theorem C5_dispatch_counts_and_deactivates (bot : Bot) (n : Notification.t)
    (now : Z) (users : gmap Z User.t) :
  send_notification None n now users
  = Raise (ValueError "Bot instance not provided")
  /\ exists p,
       send_notification (Some bot) n now users
       = Ok (sent_count p, (Notification.mark_sent n now (sent_count p), p))
       /\ sent_count p
          = Z.of_nat (length (get_target_users n users))
            - Z.of_nat (length (failed bot (notification_text n)
                                       (get_target_users n users)))
       /\ attempts p
          = map (fun r => (User.telegram_id (snd r), notification_text n))
                (get_target_users n users)
       /\ (forall k u,
              (k, u) ∈ get_target_users n users ->
              bot (User.telegram_id u) (notification_text n)
              = TelegramForbiddenError ->
              NotificationService.users p !! k = Some (User.set_is_active u false))
       /\ (forall k,
              k ∉ map fst (forbidden bot (notification_text n)
                                     (get_target_users n users)) ->
              NotificationService.users p !! k = users !! k).
Proof.
  split; [reflexivity|].
  exists (fold_left (send_one bot (notification_text n))
                    (get_target_users n users) (mkProgress 0 users [])).
  destruct (send_loop bot (notification_text n) (get_target_users n users)
                      (mkProgress 0 users [])) as (Hc & Ha & Hu).
  cbn [NotificationService.sent_count NotificationService.attempts
       NotificationService.users] in Hc, Ha, Hu.
  split_and!.
  - reflexivity.
  - rewrite Hc. lia.
  - rewrite Ha. reflexivity.
  - intros k u Hin Hf. rewrite Hu.
    pose proof (proj1 (elem_of_get_target_users n users k u) Hin) as (Hk & _).
    rewrite decide_True.
    + by rewrite Hk.
    + apply list_elem_of_fmap. exists (k, u). split; [reflexivity|].
      unfold forbidden. apply list_elem_of_filter. by split.
  - intros k Hk. rewrite Hu. by rewrite decide_False.
Qed.

Lemma C5_dispatch_counts_and_deactivates_witness :
  (1, Samples.user 1001 STUDENT "221-361" true true)
    ∈ get_target_users (Samples.notification None) Samples.users
  /\ Samples.bot 1001 (notification_text (Samples.notification None))
     = TelegramForbiddenError
  /\ exists p,
       send_notification (Some Samples.bot) (Samples.notification None) 100
                         Samples.users
       = Ok (sent_count p,
             (Notification.mark_sent (Samples.notification None) 100
                                     (sent_count p), p))
       /\ NotificationService.users p !! 1
          = Some (Samples.user 1001 STUDENT "221-361" false true).
Proof.
  assert (Hin : (1, Samples.user 1001 STUDENT "221-361" true true)
                  ∈ get_target_users (Samples.notification None) Samples.users).
  { apply elem_of_get_target_users. split_and!; try reflexivity.
    - intros H. discriminate H.
    - unfold passes_filters. split_and!; try (intros H; discriminate H).
      intros _. reflexivity. }
  split; [exact Hin|]. split; [reflexivity|].
  destruct (C5_dispatch_counts_and_deactivates
              Samples.bot (Samples.notification None) 100 Samples.users)
    as [_ (p & Hrun & _ & _ & Hf & _)].
  exists p. split; [exact Hrun|].
  apply (Hf 1 (Samples.user 1001 STUDENT "221-361" true true) Hin).
  reflexivity.
Defined.

(** C5, refuted as stated: of three recipients two reject the message, one
    of them as a bad request; the call returns the number 1 alone, and the
    recipient refused as a bad request is still active afterwards. *)
Lemma C5_bad_request_recipient_stays_active :
  length (get_target_users (Samples.notification None) Samples.users) = 3%nat
  /\ length (failed Samples.bot (notification_text (Samples.notification None))
                    (get_target_users (Samples.notification None) Samples.users))
     = 2%nat
  /\ (3, Samples.user 1003 TEACHER "221-361" true true)
       ∈ get_target_users (Samples.notification None) Samples.users
  /\ Samples.bot 1003 (notification_text (Samples.notification None))
     = TelegramBadRequest
  /\ match Samples.dispatch with
     | Ok (count, (_, p)) =>
         count = 1
         /\ User.is_active <$> NotificationService.users p !! 3 = Some true
         /\ User.is_active <$> NotificationService.users p !! 1 = Some false
     | Raise _ => False
     end.
Proof.
  split_and!.
  - vm_compute. reflexivity.
  - vm_compute. reflexivity.
  - apply elem_of_get_target_users. split_and!; try reflexivity.
    + intros H. discriminate H.
    + unfold passes_filters. split_and!; try (intros H; discriminate H).
      intros _. reflexivity.
  - reflexivity.
  - vm_compute. split_and!; reflexivity.
Qed.

End Notifications.

(** ** The dashboard summary *)

Section Dashboard.
Import AnalyticsService.

(** The digits of [round(_, 1)] are those of a nearest multiple of a tenth. *)
Lemma dtoa1_nearest (m : positive) (e : Z) :
  nearest_tenths m e (PyFloat.dtoa1 m e).
Proof.
  unfold nearest_tenths, PyFloat.dtoa1.
  destruct (0 <=? e) eqn:He; [reflexivity|].
  apply Z.leb_gt in He.
  assert (Hd : 0 < 2 ^ (- e)) by (apply Z.pow_pos_nonneg; lia).
  pose proof (Z.div_mod (10 * Zpos m) (2 ^ (- e)) ltac:(lia)) as Hdm.
  pose proof (Z.mod_pos_bound (10 * Zpos m) (2 ^ (- e)) Hd) as Hr.
  set (d := 2 ^ (- e)) in *.
  set (q := 10 * Zpos m / d) in *.
  set (r := (10 * Zpos m) mod d) in *.
  destruct (2 * r <? d) eqn:H1; [apply Z.ltb_lt in H1; nia|].
  apply Z.ltb_ge in H1.
  destruct (d <? 2 * r) eqn:H2; [apply Z.ltb_lt in H2; nia|].
  apply Z.ltb_ge in H2.
  destruct (Z.even q); nia.
Qed.

(** A tie goes to the even integer. *)
Lemma dtoa1_tie_even (m : positive) (e : Z) :
  e < 0 ->
  2 * ((10 * Zpos m) mod 2 ^ (- e)) = 2 ^ (- e) ->
  Z.even (PyFloat.dtoa1 m e) = true.
Proof.
  intros He Htie. unfold PyFloat.dtoa1.
  rewrite (proj2 (Z.leb_gt 0 e) He).
  rewrite (proj2 (Z.ltb_ge _ _)) by lia.
  rewrite (proj2 (Z.ltb_ge _ _)) by lia.
  destruct (Z.even (10 * Zpos m / 2 ^ (- e))) eqn:Hq; [exact Hq|].
  rewrite Z.even_add, Hq. reflexivity.
Qed.

Lemma or_0_Some (n : Z) : or_0 (Some n) = n.
Proof.
  unfold or_0, truthy_int. destruct (Z.eqb_spec n 0) as [->|Hne]; reflexivity.
Qed.

(** C7: the summary reports the counts it is given, and for a positive
    count of yesterday its change is the float
    [((today - yesterday) / yesterday) * 100] passed through [round(_, 1)],
    that is the float nearest to [k / 10] for an integer [k] nearest to ten
    times that product; for a count of yesterday of zero it is the integer
    100 when today's count is positive and the integer 0 when it is zero.
    Yesterday 0 and today 5 give 100; yesterday 10 and today 5 give
    -50.0. *)
Theorem C7_change_percent (today yesterday new_users active_users : Z) :
  requests_change_percent
    (get_dashboard_summary (Some today) (Some yesterday)
                           (Some new_users) (Some active_users))
  = change_percent today yesterday
  /\ (0 < yesterday ->
      change_percent today yesterday
      = PyFloat (PyFloat.round1
                   (PyFloat.mul
                      (PyFloat.int_truediv (today - yesterday) yesterday)
                      (PyFloat.of_int 100)))
      /\ forall s m e,
           PyFloat.mul (PyFloat.int_truediv (today - yesterday) yesterday)
                       (PyFloat.of_int 100)
           = S754_finite s m e ->
           exists k,
             change_percent today yesterday = PyFloat (PyFloat.strtod1 s k)
             /\ nearest_tenths m e k)
  /\ (yesterday = 0 -> 0 < today -> change_percent today yesterday = PyInt 100)
  /\ (yesterday = 0 -> today = 0 -> change_percent today yesterday = PyInt 0)
  /\ change_percent 5 0 = PyInt 100
  /\ change_percent 5 10 = PyFloat (SFopp (PyFloat.of_int 50)).
Proof.
  split_and!.
  - unfold get_dashboard_summary. simpl. by rewrite !or_0_Some.
  - intros Hy. unfold change_percent.
    rewrite (proj2 (Z.ltb_lt 0 yesterday) Hy). split; [reflexivity|].
    intros s m e Hp. exists (PyFloat.dtoa1 m e). rewrite Hp. simpl.
    split; [reflexivity|apply dtoa1_nearest].
  - intros -> Ht. unfold change_percent. simpl.
    by rewrite (proj2 (Z.ltb_lt 0 today) Ht).
  - intros -> ->. reflexivity.
  - reflexivity.
  - vm_compute. reflexivity.
Qed.

Lemma C7_change_percent_witness :
  0 < 3
  /\ change_percent 1 3
     = PyFloat (PyFloat.round1
                  (PyFloat.mul (PyFloat.int_truediv (1 - 3) 3)
                               (PyFloat.of_int 100)))
  /\ change_percent 1 3
     = PyFloat (PyFloat.strtod1 true 667).
Proof.
  split; [lia|].
  split.
  - apply (C7_change_percent 1 3 0 0). lia.
  - vm_compute. reflexivity.
Defined.

End Dashboard.

(** ** Stable sorting by descending score *)

Section Before.
Context {A : Type}.
Implicit Types (l : list A) (a b : A).

Lemma before_nil a b : ~ before [] a b.
Proof. intros H. inversion H. Qed.

Lemma before_elem_of l a b : before l a b -> a ∈ l /\ b ∈ l.
Proof.
  induction 1 as [a b l Hb|x a b l _ [Ha Hb]].
  - split; [by left|by right].
  - split; by right.
Qed.

Lemma before_app_l l1 l2 a b : before l1 a b -> before (l1 ++ l2) a b.
Proof.
  induction 1 as [a b l Hb|x a b l _ IH]; simpl.
  - apply before_head. apply elem_of_app. by left.
  - by apply before_tail.
Qed.

Lemma before_app_r l1 l2 a b : before l2 a b -> before (l1 ++ l2) a b.
Proof.
  intros H. induction l1 as [|x l1 IH]; [exact H|].
  simpl. by apply before_tail.
Qed.

Lemma before_app_mid l1 l2 a b : a ∈ l1 -> b ∈ l2 -> before (l1 ++ l2) a b.
Proof.
  intros Ha Hb. induction l1 as [|x l1 IH]; [by apply elem_of_nil in Ha|].
  simpl. apply elem_of_cons in Ha as [->|Ha].
  - apply before_head. apply elem_of_app. by right.
  - apply before_tail. by apply IH.
Qed.

Lemma before_take (n : nat) l a b : before (take n l) a b -> before l a b.
Proof.
  intros H. rewrite <- (take_drop n l). by apply before_app_l.
Qed.

Lemma before_filter (P : A -> Prop) `{forall x, Decision (P x)} l a b :
  before (filter P l) a b -> before l a b.
Proof.
  induction l as [|x l IH]; intros Hb.
  - rewrite filter_nil in Hb. by apply before_nil in Hb.
  - rewrite filter_cons in Hb. destruct (decide (P x)).
    + inversion Hb as [? ? ? Hin|? ? ? ? Hrest]; subst.
      * apply before_head. by apply list_elem_of_filter in Hin as [_ Hin].
      * apply before_tail. by apply IH.
    + apply before_tail. by apply IH.
Qed.

Lemma before_map {B : Type} (f : A -> B) l (x y : B) :
  before (map f l) x y -> exists a b, x = f a /\ y = f b /\ before l a b.
Proof.
  induction l as [|c l IH]; simpl; intros Hb.
  - inversion Hb.
  - inversion Hb as [? ? ? Hin|? ? ? ? Hrest]; subst.
    + apply list_elem_of_fmap in Hin as (b & -> & Hin).
      exists c, b. split_and!; [done|done|by apply before_head].
    + destruct (IH Hrest) as (a & b & -> & -> & Hab).
      exists a, b. split_and!; [done|done|by apply before_tail].
Qed.

Lemma StronglySorted_before (R : relation A) l a b :
  StronglySorted R l -> before l a b -> R a b.
Proof.
  intros Hs Hb. induction Hb as [a b l Hin|x a b l _ IH].
  - apply StronglySorted_cons in Hs as [Hall _].
    rewrite Forall_forall in Hall. by apply Hall.
  - apply StronglySorted_cons in Hs as [_ Hs]. by apply IH.
Qed.

End Before.

Section SortDesc.
Context {A : Type}.
Variable key : A -> Q.
Implicit Types (l : list A) (x a b : A).

Lemma elem_of_insert_desc x l a :
  a ∈ Fuzz.insert_desc key x l <-> a = x \/ a ∈ l.
Proof.
  induction l as [|y l IH]; simpl.
  - rewrite list_elem_of_singleton. set_solver.
  - destruct (Qle_bool (key y) (key x)).
    + rewrite elem_of_cons. reflexivity.
    + rewrite !elem_of_cons, IH. tauto.
Qed.

Lemma elem_of_sort_desc l a : a ∈ Fuzz.sort_desc key l <-> a ∈ l.
Proof.
  induction l as [|y l IH]; simpl; [reflexivity|].
  rewrite elem_of_insert_desc, elem_of_cons, IH. reflexivity.
Qed.

Lemma length_insert_desc x l :
  length (Fuzz.insert_desc key x l) = S (length l).
Proof.
  induction l as [|y l IH]; simpl; [reflexivity|].
  destruct (Qle_bool (key y) (key x)); simpl; [reflexivity|].
  by rewrite IH.
Qed.

Lemma length_sort_desc l : length (Fuzz.sort_desc key l) = length l.
Proof.
  induction l as [|y l IH]; simpl; [reflexivity|].
  by rewrite length_insert_desc, IH.
Qed.

(** Insertion keeps the descending order. *)
Lemma insert_desc_sorted x l :
  StronglySorted (desc key) l -> StronglySorted (desc key) (Fuzz.insert_desc key x l).
Proof.
  induction l as [|y l IH]; simpl; intros Hs.
  - repeat constructor.
  - destruct (Qle_bool (key y) (key x)) eqn:E.
    + apply Qle_bool_iff in E. constructor; [exact Hs|].
      constructor; [exact E|].
      apply StronglySorted_cons in Hs as [Hall _].
      rewrite Forall_forall in *. intros z Hz.
      unfold desc in *. eapply Qle_trans; [by apply Hall|exact E].
    + assert (Hlt : (key x < key y)%Q).
      { apply Qnot_le_lt. intros Hle. apply Qle_bool_iff in Hle. congruence. }
      apply StronglySorted_cons in Hs as [Hall Hs].
      constructor; [by apply IH|].
      rewrite Forall_forall in *. intros z Hz.
      apply elem_of_insert_desc in Hz as [->|Hz].
      * unfold desc. by apply Qlt_le_weak.
      * by apply Hall.
Qed.

Lemma sort_desc_sorted l : StronglySorted (desc key) (Fuzz.sort_desc key l).
Proof.
  induction l as [|y l IH]; simpl; [constructor|].
  by apply insert_desc_sorted.
Qed.

(** Sorting a list that is in descending order leaves it as it is. *)
Lemma sort_desc_of_sorted l :
  StronglySorted (desc key) l -> Fuzz.sort_desc key l = l.
Proof.
  induction l as [|y l IH]; intros Hs; [reflexivity|].
  apply StronglySorted_cons in Hs as [Hall Hs]. simpl. rewrite IH by exact Hs.
  destruct l as [|z l]; [reflexivity|]. simpl.
  rewrite Forall_forall in Hall.
  assert (Hz : (key z <= key y)%Q) by (apply Hall; by left).
  apply Qle_bool_iff in Hz. by rewrite Hz.
Qed.

(** Where an insertion can put two elements relative to each other. *)
Lemma before_insert_desc x l a b :
  before (Fuzz.insert_desc key x l) a b ->
  (a = x /\ b ∈ l) \/ (b = x /\ a ∈ l /\ (key x < key a)%Q) \/ before l a b.
Proof.
  induction l as [|y l IH]; simpl; intros Hb.
  - inversion Hb as [? ? ? Hin|? ? ? ? Hrest]; subst.
    + by apply elem_of_nil in Hin.
    + by apply before_nil in Hrest.
  - destruct (Qle_bool (key y) (key x)) eqn:E.
    + inversion Hb as [? ? ? Hin|? ? ? ? Hrest]; subst; [by left|by right; right].
    + assert (Hlt : (key x < key y)%Q).
      { apply Qnot_le_lt. intros Hle. apply Qle_bool_iff in Hle. congruence. }
      inversion Hb as [? ? ? Hin|? ? ? ? Hrest]; subst.
      * apply elem_of_insert_desc in Hin as [->|Hin].
        -- right; left. split_and!; [done|by left|done].
        -- right; right. by apply before_head.
      * destruct (IH Hrest) as [[-> Hin]|[(-> & Hin & Hk)|Hrest']].
        -- left. split; [done|by right].
        -- right; left. split_and!; [done|by right|done].
        -- right; right. by apply before_tail.
Qed.

(** The sort is stable: elements of equal key keep their order. *)
Lemma sort_desc_stable l a b :
  before (Fuzz.sort_desc key l) a b -> (key a == key b)%Q -> before l a b.
Proof.
  induction l as [|y l IH]; simpl; intros Hb Heq.
  - by apply before_nil in Hb.
  - apply before_insert_desc in Hb as [[-> Hin]|[(-> & Hin & Hk)|Hrest]].
    + apply before_head. exact (proj1 (elem_of_sort_desc _ _) Hin).
    + exfalso. apply (Qlt_not_le _ _ Hk). apply Qle_lteq. by right.
    + apply before_tail. by apply IH.
Qed.

Lemma StronglySorted_take (R : relation A) (n : nat) l :
  StronglySorted R l -> StronglySorted R (take n l).
Proof.
  intros Hs. rewrite <- (take_drop n l) in Hs.
  by apply StronglySorted_app_1_l in Hs.
Qed.

Lemma StronglySorted_filter (R : relation A) (P : A -> Prop)
    `{forall x, Decision (P x)} l :
  StronglySorted R l -> StronglySorted R (filter P l).
Proof.
  induction l as [|y l IH]; intros Hs; [constructor|].
  apply StronglySorted_cons in Hs as [Hall Hs]. rewrite filter_cons.
  destruct (decide (P y)); [|by apply IH].
  apply StronglySorted_cons. split; [|by apply IH].
  rewrite Forall_forall in *. intros z Hz.
  apply list_elem_of_filter in Hz as [_ Hz]. by apply Hall.
Qed.

(** In a descending list, the elements at or above a threshold come
    first. *)
Lemma filter_threshold_prefix (t : Q) l :
  StronglySorted (desc key) l ->
  exists rest,
    l = filter (fun a => Qle_bool t (key a) = true) l ++ rest
    /\ forall a, a ∈ rest -> (key a < t)%Q.
Proof.
  induction l as [|y l IH]; intros Hs.
  - exists []. split; [reflexivity|]. intros a Ha. by apply elem_of_nil in Ha.
  - apply StronglySorted_cons in Hs as [Hall Hs].
    rewrite filter_cons. destruct (decide (Qle_bool t (key y) = true)) as [Hy|Hy].
    + destruct (IH Hs) as (rest & Hl & Hrest). exists rest.
      split; [|exact Hrest]. simpl. by rewrite <- Hl.
    + assert (Hlt : (key y < t)%Q).
      { apply Qnot_le_lt. intros Hle. by apply Qle_bool_iff in Hle. }
      assert (Hbelow : forall a, a ∈ l -> (key a < t)%Q).
      { intros a Ha. rewrite Forall_forall in Hall.
        eapply Qle_lt_trans; [by apply Hall|exact Hlt]. }
      rewrite filter_none.
      * exists (y :: l). split; [reflexivity|].
        intros a Ha. apply elem_of_cons in Ha as [->|Ha]; [exact Hlt|by apply Hbelow].
      * intros a Ha Hle. apply Qle_bool_iff in Hle.
        apply (Qlt_not_le _ _ (Hbelow a Ha)). exact Hle.
Qed.

End SortDesc.

(** Sorting commutes with a map that keeps the keys. *)
Lemma sort_desc_map {A B : Type} (f : A -> B) (keyA : A -> Q) (keyB : B -> Q)
    (l : list A) :
  (forall a, keyB (f a) = keyA a) ->
  Fuzz.sort_desc keyB (map f l) = map f (Fuzz.sort_desc keyA l).
Proof.
  intros Hk. induction l as [|x l IH]; simpl; [reflexivity|].
  rewrite IH. generalize (Fuzz.sort_desc keyA l). intros s.
  induction s as [|y s IHs]; simpl; [reflexivity|].
  rewrite !Hk. destruct (Qle_bool (keyA y) (keyA x)); simpl; [reflexivity|].
  by rewrite IHs.
Qed.

(** ** The fuzzy search *)

Section Dicts.
Context {V : Type}.
Implicit Types (d : list (Z * V)).

Lemma dict_set_fresh (k : Z) (v : V) d :
  k ∉ map fst d -> Dict.set k v d = d ++ [(k, v)].
Proof.
  induction d as [|[k' v'] d IH]; simpl; intros Hk; [reflexivity|].
  destruct (Z.eqb_spec k k') as [->|Hne].
  - exfalso. apply Hk. by left.
  - rewrite IH; [reflexivity|]. intros Hin. apply Hk. by right.
Qed.

Lemma dict_get_elem_of (k : Z) (v : V) d :
  NoDup (map fst d) -> (k, v) ∈ d -> Dict.get k d = Some v.
Proof.
  induction d as [|[k' v'] d IH]; simpl; intros Hnd Hin.
  - by apply elem_of_nil in Hin.
  - apply NoDup_cons in Hnd as [Hk' Hnd].
    apply elem_of_cons in Hin as [[= <- <-]|Hin].
    + by rewrite Z.eqb_refl.
    + destruct (Z.eqb_spec k k') as [->|Hne]; [|by apply IH].
      exfalso. apply Hk'. apply list_elem_of_fmap. by exists (k', v).
Qed.

End Dicts.

Section SearchProofs.
Context {A : Type}.
Variable text_of : A -> string.
Variable token_set_ratio : string -> string -> Q.
Variable query : string.

Abbreviation candidate := (Z * A)%type.
Abbreviation score_of := (Ranking.score_of text_of token_set_ratio query).
Abbreviation data_of := (Ranking.data_of text_of).
Abbreviation hit_of := (Ranking.hit_of text_of token_set_ratio query).
Abbreviation scored := (Ranking.scored text_of token_set_ratio query).
Abbreviation passes := (Ranking.passes text_of token_set_ratio query).
Abbreviation ranked := (Ranking.ranked text_of token_set_ratio query).
Implicit Types (c : candidate) (items l : list candidate).

Lemma build_search_data_acc items (acc : list (Z * (candidate * string))) :
  NoDup (map fst acc ++ map fst items) ->
  fold_left (fun d item => Dict.set (fst item) (item, text_of (snd item)) d)
            items acc
  = acc ++ map data_of items.
Proof.
  revert acc. induction items as [|c items IH]; intros acc Hnd; simpl.
  - by rewrite app_nil_r.
  - simpl in Hnd. rewrite dict_set_fresh.
    + rewrite IH.
      * rewrite <- app_assoc. reflexivity.
      * rewrite map_app. simpl. rewrite <- app_assoc. exact Hnd.
    + apply NoDup_app in Hnd as (_ & Hdis & _).
      intros Hin. apply (Hdis _ Hin). by left.
Qed.

(** With distinct keys, [search_data] holds one entry per candidate, in
    the order of the pool. *)
Lemma build_search_data_eq items :
  NoDup (map fst items) ->
  Search.build_search_data text_of items = map data_of items.
Proof.
  intros Hnd. unfold Search.build_search_data.
  by rewrite build_search_data_acc.
Qed.

(** The matches [process.extract] returns, as the head of the sorted pool. *)
Lemma extract_eq items (n : nat) :
  Fuzz.extract token_set_ratio query
               (map (fun kd : Z * (candidate * string) => (fst kd, snd (snd kd)))
                    (map data_of items)) n
  = map hit_of (take n (Fuzz.sort_desc score_of items)).
Proof.
  unfold Fuzz.extract. rewrite !map_map. simpl.
  change (map (fun x : candidate => (text_of (snd x), token_set_ratio query (text_of (snd x)), fst x)) items)
    with (map hit_of items).
  rewrite (sort_desc_map hit_of score_of Fuzz.hit_score) by reflexivity.
  by rewrite fmap_take.
Qed.

(** The loop over the matches keeps those at or above the threshold and
    never misses a key. *)
Lemma collect_eq items (threshold : Z) l :
  NoDup (map fst items) ->
  (forall c, c ∈ l -> c ∈ items) ->
  Search.collect (map data_of items) threshold (map hit_of l)
  = Some (map scored (filter (passes threshold) l)).
Proof.
  intros Hnd. induction l as [|c l IH]; intros Hl; simpl; [reflexivity|].
  assert (IH' : Search.collect (map data_of items) threshold (map hit_of l)
                = Some (map scored (filter (passes threshold) l))).
  { apply IH. intros c' Hc'. apply Hl. by right. }
  rewrite filter_cons.
  change (Qle_bool (inject_Z threshold) (token_set_ratio query (text_of (snd c))))
    with (Qle_bool (inject_Z threshold) (score_of c)).
  destruct (decide (passes threshold c)) as [Hp|Hp]; unfold Ranking.passes in Hp.
  - rewrite Hp.
    rewrite (dict_get_elem_of (fst c) (c, text_of (snd c))).
    + rewrite IH'. reflexivity.
    + rewrite map_map. simpl. exact Hnd.
    + apply list_elem_of_fmap. exists c. split; [reflexivity|].
      apply Hl. by left.
  - apply not_true_is_false in Hp. rewrite Hp. exact IH'.
Qed.

(** [search] in one expression: score and sort the pool, keep the first
    [2 * limit], drop what is below the threshold, keep the first
    [limit]. *)
Lemma search_eq items (limit : nat) (threshold : Z) :
  NoDup (map fst items) ->
  Search.search text_of token_set_ratio items query limit threshold
  = Some (map scored
              (take limit
                    (filter (passes threshold)
                            (take (limit * 2) (Fuzz.sort_desc score_of items))))).
Proof.
  intros Hnd. unfold Search.search.
  destruct items as [|c0 items0] eqn:Hitems.
  { simpl. rewrite take_nil, filter_nil, take_nil. reflexivity. }
  rewrite <- Hitems in *. clear Hitems c0 items0.
  rewrite build_search_data_eq by exact Hnd.
  rewrite extract_eq. rewrite collect_eq; [|exact Hnd|].
  - f_equal.
    rewrite (sort_desc_map scored score_of snd) by reflexivity.
    rewrite sort_desc_of_sorted; [by rewrite fmap_take|].
    apply StronglySorted_filter, StronglySorted_take, sort_desc_sorted.
  - intros c Hc. apply elem_of_take in Hc as (i & Hc & _).
    apply list_elem_of_lookup_2 in Hc. by apply elem_of_sort_desc in Hc.
Qed.

(** The candidates returned are the head of the sorted pool. *)
Lemma returned_prefix items (limit : nat) (threshold : Z) :
  exists rest,
    Fuzz.sort_desc score_of items
    = take limit
           (filter (passes threshold)
                   (take (limit * 2) (Fuzz.sort_desc score_of items)))
        ++ rest.
Proof.
  set (S := Fuzz.sort_desc score_of items).
  destruct (filter_threshold_prefix score_of (inject_Z threshold)
              (take (limit * 2) S)) as (rest1 & H1 & _).
  { apply StronglySorted_take, sort_desc_sorted. }
  change (filter _ (take (limit * 2) S))
    with (filter (passes threshold) (take (limit * 2) S)) in H1.
  set (F := filter (passes threshold) (take (limit * 2) S)) in *.
  exists (drop limit F ++ rest1 ++ drop (limit * 2) S).
  rewrite app_assoc, take_drop, app_assoc, <- H1, take_drop. reflexivity.
Qed.

(** [search] returns, and what it returns is ranked. *)
Lemma search_ranked items (limit : nat) (threshold : Z) :
  NoDup (map fst items) ->
  exists res,
    Search.search text_of token_set_ratio items query limit threshold = Some res
    /\ ranked items limit threshold res.
Proof.
  intros Hnd. rewrite (search_eq items limit threshold Hnd).
  eexists. split; [reflexivity|].
  set (S := Fuzz.sort_desc score_of items).
  set (R := take limit (filter (passes threshold) (take (limit * 2) S))).
  assert (HRS : forall c, c ∈ R -> c ∈ take (limit * 2) S /\ passes threshold c).
  { intros c Hc. unfold R in Hc. apply subseteq_take in Hc.
    apply list_elem_of_filter in Hc as [Hp Hc]. by split. }
  assert (HSitems : forall c, c ∈ S -> c ∈ items).
  { intros c Hc. by apply elem_of_sort_desc in Hc. }
  unfold Ranking.ranked. split_and!.
  - rewrite length_map. unfold R. rewrite length_take. lia.
  - intros x Hx. apply list_elem_of_fmap in Hx as (c & -> & Hc). simpl.
    destruct (HRS c Hc) as [Hc2 Hp]. split_and!.
    + apply HSitems. by apply subseteq_take in Hc2.
    + reflexivity.
    + by apply Qle_bool_iff.
  - pose proof (extract_eq items (limit * 2)) as He.
    rewrite map_map in He. simpl in He. rewrite He.
    rewrite length_map, length_take. unfold S.
    by rewrite length_sort_desc.
  - intros x Hx. apply list_elem_of_fmap in Hx as (c & -> & Hc). simpl.
    pose proof (extract_eq items (limit * 2)) as He.
    rewrite map_map in He. simpl in He. rewrite He.
    apply list_elem_of_fmap. exists c. split; [reflexivity|].
    by destruct (HRS c Hc).
  - intros x y Hb. apply before_map in Hb as (a & b & -> & -> & Hab). simpl.
    assert (HabS : before S a b).
    { unfold R in Hab. by apply before_take, before_filter, before_take in Hab. }
    split.
    + apply (StronglySorted_before (desc score_of) S a b); [|exact HabS].
      apply sort_desc_sorted.
    + intros Heq. by apply (sort_desc_stable score_of).
  - intros c Hc Hout x Hx.
    apply list_elem_of_fmap in Hx as (r & -> & Hr). simpl.
    destruct (returned_prefix items limit threshold) as (rest & Hpre).
    fold S in Hpre. fold R in Hpre.
    assert (HcS : c ∈ S) by (by apply elem_of_sort_desc).
    rewrite Hpre in HcS. apply elem_of_app in HcS as [HcR|Hcrest].
    + exfalso. apply Hout. apply list_elem_of_fmap. by exists c.
    + pose proof (sort_desc_sorted score_of items) as Hs.
      fold S in Hs. rewrite Hpre in Hs.
      apply (StronglySorted_app_1_elem_of _ _ _ _ _ Hs Hr Hcrest).
Qed.

End SearchProofs.

Lemma NoDup_keys_filter {A : Type} (P : Z * A -> Prop)
    `{forall x, Decision (P x)} (rows : list (Z * A)) :
  NoDup (map fst rows) -> NoDup (map fst (filter P rows)).
Proof.
  induction rows as [|r rows IH]; simpl; intros Hnd; [constructor|].
  apply NoDup_cons in Hnd as [Hr Hnd]. rewrite filter_cons.
  destruct (decide (P r)); [|by apply IH].
  simpl. apply NoDup_cons. split; [|by apply IH].
  intros Hin. apply Hr. apply list_elem_of_fmap in Hin as (x & -> & Hx).
  apply list_elem_of_filter in Hx as [_ Hx].
  apply list_elem_of_fmap. by exists x.
Qed.



(** The sample search, evaluated: of the two active questions that score
    75, the one that comes first in the table is returned. *)
Example search_sample :
  FAQSearch.search Samples.scorer Samples.faq_rows "стипендия" 1 50
  = Some [((2, Samples.faq_question "стипендия: сроки выплат" true),
           inject_Z 75)].
Proof. vm_compute. reflexivity. Qed.


(* ================================================================== *)
(** * Part III: further properties of the services *)
(* ================================================================== *)

(** ** Messages, assignment and counts of tickets *)

Section TicketOperations.
Import TicketService TicketKeyboards TicketHandlers.

(** X1: On a stored ticket [add_message] appends exactly one row, the message
    it returns, with the author, text and flags it was given.  A staff
    message moves an [OPEN] ticket to [IN_PROGRESS], a requester's message
    moves a [WAITING] one to [IN_PROGRESS], and nothing else about the
    ticket changes: in every other case, a [RESOLVED] or [CLOSED] ticket
    included, the ticket is left as it was. *)
Theorem add_message_appends_and_advances (s : Store) (tid : Z) (t : Ticket.t)
    (uid : Z) (text : string) (is_from_staff is_internal : bool) :
  tickets s !! tid = Some t ->
  exists t',
    add_message tid uid text is_from_staff is_internal s
    = Ok (TicketMessage.mk (next_message_id s) tid uid text
                           is_from_staff is_internal,
          mkStore (<[tid := t']> (tickets s))
                  (messages s
                     ++ [TicketMessage.mk (next_message_id s) tid uid text
                                          is_from_staff is_internal]))
    /\ (is_from_staff = true -> Ticket.status t = OPEN ->
        t' = Ticket.set_status t IN_PROGRESS)
    /\ (is_from_staff = false -> Ticket.status t = WAITING ->
        t' = Ticket.set_status t IN_PROGRESS)
    /\ (~ (is_from_staff = true /\ Ticket.status t = OPEN) ->
        ~ (is_from_staff = false /\ Ticket.status t = WAITING) ->
        t' = t).
Proof.
  intros Ht. unfold add_message. rewrite Ht.
  eexists. split; [reflexivity|].
  destruct is_from_staff, (Ticket.status t) eqn:Hst; simpl;
    split_and!; try done; intros; exfalso; tauto.
Qed.

Lemma add_message_appends_and_advances_witness :
  tickets (Samples.ticket_store WAITING) !! 1 = Some (Samples.ticket WAITING)
  /\ exists t',
       add_message 1 7 "Есть новости?" false false (Samples.ticket_store WAITING)
       = Ok (TicketMessage.mk 2 1 7 "Есть новости?" false false,
             mkStore (<[1 := t']> (tickets (Samples.ticket_store WAITING)))
                     (messages (Samples.ticket_store WAITING)
                        ++ [TicketMessage.mk 2 1 7 "Есть новости?" false false]))
       /\ t' = Samples.ticket IN_PROGRESS.
Proof.
  split; [reflexivity|].
  destruct (add_message_appends_and_advances
              (Samples.ticket_store WAITING) 1 (Samples.ticket WAITING)
              7 "Есть новости?" false false eq_refl)
    as (t' & Hrun & _ & Hadv & _).
  exists t'. split; [exact Hrun|]. by apply Hadv.
Defined.

(** X2: On a stored ticket [assign_ticket] sets the assignee, whoever was
    assigned before, moves an [OPEN] ticket to [IN_PROGRESS] and keeps any
    other status; it writes no message and touches no other ticket. *)
Theorem assign_ticket_sets_assignee (s : Store) (tid : Z) (t : Ticket.t)
    (assignee : Z) :
  tickets s !! tid = Some t ->
  exists t',
    assign_ticket tid assignee s
    = Ok (Some t', mkStore (<[tid := t']> (tickets s)) (messages s))
    /\ Ticket.assigned_to_id t' = Some assignee
    /\ Ticket.status t'
       = (if bool_decide (Ticket.status t = OPEN) then IN_PROGRESS
          else Ticket.status t)
    /\ Ticket.set_status (Ticket.set_assigned_to_id t' (Ticket.assigned_to_id t))
                         (Ticket.status t) = t
    /\ forall other, other <> tid ->
         <[tid := t']> (tickets s) !! other = tickets s !! other.
Proof.
  intros Ht. unfold assign_ticket. rewrite Ht.
  eexists. split; [reflexivity|]. simpl.
  destruct t as [num u a sub d st pr cat anon res]. simpl.
  destruct (bool_decide (st = OPEN)); simpl; split_and!; try reflexivity;
    intros other Hne; by rewrite lookup_insert_ne.
Qed.

Lemma assign_ticket_sets_assignee_witness :
  tickets (Samples.ticket_store OPEN) !! 1 = Some (Samples.ticket OPEN)
  /\ exists t',
       assign_ticket 1 9 (Samples.ticket_store OPEN)
       = Ok (Some t',
             mkStore (<[1 := t']> (tickets (Samples.ticket_store OPEN)))
                     (messages (Samples.ticket_store OPEN)))
       /\ Ticket.assigned_to_id t' = Some 9
       /\ Ticket.status t' = IN_PROGRESS.
Proof.
  split; [reflexivity|].
  destruct (assign_ticket_sets_assignee
              (Samples.ticket_store OPEN) 1 (Samples.ticket OPEN) 9 eq_refl)
    as (t' & Hrun & Ha & Hst & _).
  exists t'. split_and!; [exact Hrun|exact Ha|exact Hst].
Defined.

(** X3: [get_messages] returns the log of the ticket, in its order, without
    the internal notes unless they are asked for.  So an internal note
    added with [add_message] never shows in the default view, the one the
    requester's screen reads, and shows last in the view with internal
    notes. *)
Theorem get_messages_hides_internal_notes (s : Store) (tid : Z) :
  get_messages tid true s = message_log tid s
  /\ get_messages tid false s
     = filter (fun m => TicketMessage.is_internal m = false) (message_log tid s)
  /\ (forall m,
         m ∈ get_messages tid false s
         <-> m ∈ messages s
             /\ TicketMessage.ticket_id m = tid
             /\ TicketMessage.is_internal m = false)
  /\ (forall uid text is_from_staff,
         exists note s',
           add_message tid uid text is_from_staff true s = Ok (note, s')
           /\ get_messages tid false s' = get_messages tid false s
           /\ get_messages tid true s' = get_messages tid true s ++ [note]).
Proof.
  assert (Hall : forall st, get_messages tid true st = message_log tid st).
  { intros st. unfold get_messages, message_log.
    apply list_filter_iff. intros m. naive_solver. }
  assert (Hvis : forall st,
             get_messages tid false st
             = filter (fun m => TicketMessage.is_internal m = false)
                      (message_log tid st)).
  { intros st. unfold get_messages, message_log.
    rewrite list_filter_filter. apply list_filter_iff. intros m. naive_solver. }
  split_and!.
  - apply Hall.
  - apply Hvis.
  - intros m. unfold get_messages. rewrite list_elem_of_filter. naive_solver.
  - intros uid text is_from_staff. eexists _, _. split; [reflexivity|].
    split.
    + rewrite !Hvis. unfold message_log. simpl.
      rewrite !filter_app. simpl.
      rewrite (filter_cons_True (fun m => TicketMessage.ticket_id m = tid)) by done.
      rewrite filter_nil. rewrite filter_cons_False by (simpl; discriminate).
      by rewrite filter_nil, app_nil_r.
    + rewrite !Hall. unfold message_log. simpl.
      rewrite filter_app.
      by rewrite (filter_cons_True (fun m => TicketMessage.ticket_id m = tid)).
Qed.

Lemma size_delete_Some {V : Type} (m : gmap Z V) (i : Z) (x : V) :
  m !! i = Some x -> size m = S (size (delete i m)).
Proof.
  intros Hi. rewrite <- (insert_delete_id m i x Hi) at 1.
  rewrite map_size_insert_None; [reflexivity|]. apply lookup_delete_eq.
Qed.

(** X4: Assigning a stored ticket takes it out of the count of unassigned
    tickets: the count goes down by exactly one when the ticket was counted
    (no assignee, [OPEN] or [IN_PROGRESS]) and stays as it was otherwise. *)
Theorem assign_ticket_lowers_unassigned_count (s : Store) (tid : Z)
    (t : Ticket.t) (assignee : Z) :
  tickets s !! tid = Some t ->
  exists t' s',
    assign_ticket tid assignee s = Ok (Some t', s')
    /\ get_unassigned_count s'
       = get_unassigned_count s - (if decide (unassigned (tid, t)) then 1 else 0).
Proof.
  intros Ht. unfold assign_ticket. rewrite Ht.
  eexists _, _. split; [reflexivity|].
  unfold get_unassigned_count. simpl.
  rewrite map_filter_insert_False.
  2: { unfold unassigned. simpl. intros [Hnone _].
       by destruct (bool_decide (Ticket.status _ = OPEN)). }
  rewrite map_filter_delete.
  destruct (decide (unassigned (tid, t))) as [Hu|Hu].
  - rewrite (size_delete_Some (filter unassigned (tickets s)) tid t).
    + lia.
    + by apply map_lookup_filter_Some.
  - rewrite delete_id; [lia|].
    apply map_lookup_filter_None. right. intros x Hx. congruence.
Qed.

Lemma assign_ticket_lowers_unassigned_count_witness :
  tickets (Samples.ticket_store OPEN) !! 1 = Some (Samples.ticket OPEN)
  /\ get_unassigned_count (Samples.ticket_store OPEN) = 1
  /\ exists t' s',
       assign_ticket 1 9 (Samples.ticket_store OPEN) = Ok (Some t', s')
       /\ get_unassigned_count s' = 0.
Proof.
  split; [reflexivity|]. split; [vm_compute; reflexivity|].
  destruct (assign_ticket_lowers_unassigned_count
              (Samples.ticket_store OPEN) 1 (Samples.ticket OPEN) 9 eq_refl)
    as (t' & s' & Hrun & Hcount).
  exists t', s'. split; [exact Hrun|]. rewrite Hcount. vm_compute. reflexivity.
Defined.

Lemma size_filter_status {V : Type} (status : V -> TicketStatus)
    (m : gmap Z V) :
  (size (filter (fun kv : Z * V => status (snd kv) = OPEN) m)
   + size (filter (fun kv : Z * V => status (snd kv) = IN_PROGRESS) m)
   + size (filter (fun kv : Z * V => status (snd kv) = WAITING) m)
   + size (filter (fun kv : Z * V => status (snd kv) = RESOLVED) m)
   + size (filter (fun kv : Z * V => status (snd kv) = CLOSED) m))%nat
  = size m.
Proof.
  induction m as [|i x m Hi IH] using map_ind.
  - by rewrite !map_filter_empty, !map_size_empty.
  - rewrite map_size_insert_None by done. rewrite <- IH.
    rewrite !map_filter_insert. simpl.
    assert (Hf : forall st,
               filter (fun kv : Z * V => status (snd kv) = st) m !! i = None).
    { intros st. apply map_lookup_filter_None. by left. }
    destruct (status x).
    all: rewrite ?(delete_id m i Hi).
    all: repeat case_decide; try congruence.
    all: rewrite map_size_insert_None by apply Hf; lia.
Qed.

(** X5: The counts by status that [get_stats] reports add up to its total:
    every ticket is counted under exactly one status. *)
Theorem get_stats_counts_add_up (s : Store) :
  count_status OPEN s + count_status IN_PROGRESS s + count_status WAITING s
    + count_status RESOLVED s + count_status CLOSED s
  = count_total s.
Proof.
  unfold count_status, count_total.
  rewrite <- (size_filter_status Ticket.status (tickets s)). lia.
Qed.

Lemma scalar_one_or_none_Permutation {A : Type} (l l' : list A) :
  l ≡ₚ l' -> Py.scalar_one_or_none l = Py.scalar_one_or_none l'.
Proof.
  intros Hp. pose proof (Permutation_length Hp) as Hlen.
  destruct l as [|a [|b l]].
  - apply Permutation_nil_l in Hp. by subst.
  - apply Permutation_singleton_l in Hp. by subst.
  - destruct l' as [|a' [|b' l']]; simpl in Hlen; try discriminate.
    reflexivity.
Qed.

(** X6: A ticket that [create_ticket] stored is found again under its id and
    under its number, lookups under other ids and numbers answer as before,
    both counts go up by one, and a second ticket with the same number is
    refused by the unique constraint. *)
Theorem create_ticket_is_found_again (s : Store)
    (user : Z) (subject description : string) (category : option string)
    (priority : Z) (is_anonymous : bool) (prefix suffix : string) :
  number_taken (_generate_ticket_number prefix suffix) s = false ->
  exists tid t s',
    create_ticket user subject description category priority is_anonymous
                  prefix suffix s = Ok ((tid, t), s')
    /\ get_ticket_by_id tid s' = Some t
    /\ get_ticket_by_number (_generate_ticket_number prefix suffix) s'
       = Ok (Some (tid, t))
    /\ (forall other, other <> tid ->
          get_ticket_by_id other s' = get_ticket_by_id other s)
    /\ (forall number, number <> _generate_ticket_number prefix suffix ->
          get_ticket_by_number number s' = get_ticket_by_number number s)
    /\ count_total s' = count_total s + 1
    /\ get_unassigned_count s' = get_unassigned_count s + 1
    /\ (forall user2 subject2 description2 category2 priority2 is_anonymous2,
          create_ticket user2 subject2 description2 category2 priority2
                        is_anonymous2 prefix suffix s'
          = Raise (IntegrityError "tickets.ticket_number")).
Proof.
  intros Hfree. unfold create_ticket. rewrite Hfree.
  eexists _, _, _. split; [reflexivity|].
  pose proof (fresh_key_None (tickets s)) as Hnew.
  set (tid := fresh_key (tickets s)) in *.
  set (t := Ticket.mk _ _ _ _ _ _ _ _ _ _).
  assert (Hperm : map_to_list (<[tid := t]> (tickets s))
                  ≡ₚ (tid, t) :: map_to_list (tickets s))
    by (by apply map_to_list_insert).
  split_and!.
  - unfold get_ticket_by_id. simpl. apply lookup_insert_eq.
  - unfold get_ticket_by_number. simpl.
    rewrite (scalar_one_or_none_Permutation _ _
               (filter_Permutation _ _ _ Hperm)).
    rewrite filter_cons_True by reflexivity.
    replace (filter _ (map_to_list (tickets s))) with (@nil (Z * Ticket.t));
      [reflexivity|].
    symmetry. apply filter_none. intros [k x] Hin Heq.
    apply elem_of_map_to_list in Hin.
    by apply (proj1 (number_taken_false _ s) Hfree k x).
  - intros other Hother. unfold get_ticket_by_id. simpl.
    by apply lookup_insert_ne.
  - intros number Hnumber. unfold get_ticket_by_number. simpl.
    rewrite (scalar_one_or_none_Permutation _ _
               (filter_Permutation _ _ _ Hperm)).
    rewrite filter_cons_False; [reflexivity|]. simpl. congruence.
  - unfold count_total. simpl. rewrite map_size_insert_None by done. lia.
  - unfold get_unassigned_count. simpl.
    rewrite map_filter_insert_True by (split; reflexivity).
    rewrite map_size_insert_None; [lia|].
    apply map_lookup_filter_None. by left.
  - intros. 
    replace (number_taken _ _) with true; [reflexivity|].
    symmetry. unfold number_taken. apply existsb_exists.
    exists (tid, t). split.
    + apply list_elem_of_In, elem_of_map_to_list. simpl. apply lookup_insert_eq.
    + simpl. by apply String.eqb_eq.
Qed.

Lemma create_ticket_is_found_again_witness :
  number_taken (_generate_ticket_number "202402" "4821")
               (Samples.ticket_store IN_PROGRESS) = false
  /\ exists tid t s',
       create_ticket 8 "Пересдача" "Когда пересдача по физике?" None 1 false
                     "202402" "4821" (Samples.ticket_store IN_PROGRESS)
       = Ok ((tid, t), s')
       /\ get_ticket_by_number "T202402-4821" s' = Ok (Some (tid, t)).
Proof.
  split; [vm_compute; reflexivity|].
  destruct (create_ticket_is_found_again (Samples.ticket_store IN_PROGRESS)
              8 "Пересдача" "Когда пересдача по физике?" None 1 false
              "202402" "4821" ltac:(vm_compute; reflexivity))
    as (tid & t & s' & Hrun & _ & Hnum & _).
  exists tid, t, s'. split; [exact Hrun|exact Hnum].
Defined.

(** X7: What the keyboard under a ticket offers: a reply unless the ticket is
    [RESOLVED] or [CLOSED], closing only on a [RESOLVED] ticket, the two
    staff buttons only to staff, the way back to the list always; and no
    button of it names another ticket. *)
Theorem ticket_actions_buttons (tid : Z) (t : Ticket.t) (is_staff : bool) :
  let offered := callbacks (ticket_actions tid t is_staff) in
  (ticket_reply tid ∈ offered
     <-> Ticket.status t <> RESOLVED /\ Ticket.status t <> CLOSED)
  /\ (ticket_close tid ∈ offered <-> Ticket.status t = RESOLVED)
  /\ (admin_ticket_status tid ∈ offered <-> is_staff = true)
  /\ (admin_ticket_assign tid ∈ offered <-> is_staff = true)
  /\ tickets_list ∈ offered
  /\ (forall c, c ∈ offered ->
        c ∈ [ticket_reply tid; ticket_close tid; ticket_reopen tid;
             admin_ticket_status tid; admin_ticket_assign tid; tickets_list]).
Proof.
  unfold callbacks, ticket_actions.
  destruct (Ticket.status t), is_staff; simpl; split_and!;
    try (split; [intros H|intros H]);
    try (intros c H);
    try reflexivity; try discriminate; try (split; discriminate);
    try (by destruct H);
    try (repeat (apply elem_of_cons in H as [H|H]; [discriminate H|]);
         by apply elem_of_nil in H);
    set_solver.
Qed.

Lemma last_messages_spec (msgs : list TicketMessage.t) :
  (exists earlier, msgs = earlier ++ last_messages msgs)
  /\ length (last_messages msgs) = Nat.min 5 (length msgs)
  /\ (forall m, m ∈ last_messages msgs -> m ∈ msgs).
Proof.
  unfold last_messages. split_and!.
  - exists (take (length msgs - 5) msgs). by rewrite take_drop.
  - rewrite length_drop. lia.
  - intros m Hm. exact (subseteq_drop (length msgs - 5) msgs m Hm).
Qed.

(** X8: [callback_view_ticket] shows a ticket only to its requester and to
    admins and moderators, and what it shows of the log are messages of
    that ticket that are not internal notes: the last five of them. *)
Theorem callback_view_ticket_access (s : Store) (tid uid : Z) (role : UserRole) :
  match callback_view_ticket tid uid role s with
  | view_ticket t msgs =>
      tickets s !! tid = Some t
      /\ (Ticket.user_id t = uid \/ role = ADMIN \/ role = MODERATOR)
      /\ msgs = get_messages tid false s
      /\ (exists earlier, msgs = earlier ++ last_messages msgs)
      /\ length (last_messages msgs) = Nat.min 5 (length msgs)
      /\ (forall m, m ∈ last_messages msgs ->
            m ∈ messages s
            /\ TicketMessage.ticket_id m = tid
            /\ TicketMessage.is_internal m = false)
  | view_alert text =>
      (tickets s !! tid = None /\ text = "Обращение не найдено")
      \/ (exists t, tickets s !! tid = Some t
                    /\ Ticket.user_id t <> uid
                    /\ role <> ADMIN /\ role <> MODERATOR
                    /\ text = "Нет доступа к этому обращению")
  end.
Proof.
  unfold callback_view_ticket, get_ticket_by_id.
  destruct (tickets s !! tid) as [t|] eqn:Ht; [|by left].
  destruct (last_messages_spec (get_messages tid false s))
    as (Hsuffix & Hlen & Hsub).
  assert (Hshown : forall m, m ∈ last_messages (get_messages tid false s) ->
            m ∈ messages s
            /\ TicketMessage.ticket_id m = tid
            /\ TicketMessage.is_internal m = false).
  { intros m Hm. apply Hsub, list_elem_of_filter in Hm.
    destruct Hm as [[Htid [Hinc|Hint]] Hin]; [discriminate|done]. }
  destruct (Z.eqb_spec (Ticket.user_id t) uid) as [Heq|Hne]; simpl.
  - split_and!; auto.
  - destruct role; simpl.
    + right. exists t. by split_and!.
    + right. exists t. by split_and!.
    + split_and!; auto.
    + split_and!; auto.
    + right. exists t. by split_and!.
Qed.

(** X9: A reply of two characters or more to a stored ticket is appended to the
    log as a message that is not internal, so the requester's view shows
    it; it is flagged as written by staff exactly when the writer is an
    admin or a moderator, whoever owns the ticket. *)
Theorem process_ticket_reply_stores_visible_reply (s : Store) (tid : Z)
    (t : Ticket.t) (text : string) (role : UserRole) (uid : Z) :
  tid <> 0 ->
  (2 <= len text)%nat ->
  tickets s !! tid = Some t ->
  exists m s',
    process_ticket_reply (Some tid) text role uid s
    = (s', Some ("✅ Сообщение добавлено!" +:+ NL +:+ NL
                   +:+ "Используйте /tickets для просмотра обращений."))
    /\ messages s' = messages s ++ [m]
    /\ TicketMessage.ticket_id m = tid
    /\ TicketMessage.user_id m = uid
    /\ TicketMessage.message m = text
    /\ TicketMessage.is_internal m = false
    /\ (TicketMessage.is_from_staff m = true <-> role = ADMIN \/ role = MODERATOR)
    /\ get_messages tid false s' = get_messages tid false s ++ [m].
Proof.
  intros Hid Hlen Ht. unfold process_ticket_reply. simpl.
  destruct (Z.eqb_spec tid 0) as [|_]; [done|]. simpl.
  destruct (Nat.ltb_spec (len text) 2) as [|_]; [lia|].
  rewrite Ht. unfold add_message. rewrite ?Ht.
  eexists _, _. split; [reflexivity|]. simpl. split_and!; try reflexivity.
  - destruct role; simpl;
      (split;
       [intros H; first [discriminate H | by left | by right]
       |intros [H|H]; first [discriminate H | reflexivity]]).
  - unfold get_messages. simpl. rewrite filter_app.
    rewrite filter_cons_True by (simpl; auto). by rewrite filter_nil.
Qed.

Lemma process_ticket_reply_stores_visible_reply_witness :
  exists m s',
    process_ticket_reply (Some 1) "Спасибо" STUDENT 7
                         (Samples.ticket_store WAITING)
    = (s', Some ("✅ Сообщение добавлено!" +:+ NL +:+ NL
                   +:+ "Используйте /tickets для просмотра обращений."))
    /\ TicketMessage.is_from_staff m = false
    /\ get_messages 1 false s'
       = get_messages 1 false (Samples.ticket_store WAITING) ++ [m].
Proof.
  destruct (process_ticket_reply_stores_visible_reply
              (Samples.ticket_store WAITING) 1 (Samples.ticket WAITING)
              "Спасибо" STUDENT 7
              ltac:(discriminate) ltac:(vm_compute; lia) eq_refl)
    as (m & s' & Hrun & _ & _ & _ & _ & _ & Hstaff & Hview).
  exists m, s'. split_and!; [exact Hrun| |exact Hview].
  destruct (TicketMessage.is_from_staff m); [|reflexivity].
  destruct (proj1 Hstaff eq_refl); discriminate.
Defined.

(** X10: The handler changes nothing unless the conversation holds the id of a
    stored ticket and the text has two characters or more. *)
Theorem process_ticket_reply_commits_only_valid_reply
    (rid : option Z) (text : string) (role : UserRole) (uid : Z) (s : Store) :
  fst (process_ticket_reply rid text role uid s) <> s ->
  exists tid t,
    rid = Some tid /\ tid <> 0 /\ (2 <= len text)%nat
    /\ tickets s !! tid = Some t.
Proof.
  unfold process_ticket_reply. intros Hchanged.
  destruct rid as [tid|]; simpl in Hchanged; [|done].
  destruct (Z.eqb_spec tid 0) as [|Hid]; simpl in Hchanged; [done|].
  destruct (Nat.ltb_spec (len text) 2) as [|Hlen]; simpl in Hchanged; [done|].
  destruct (tickets s !! tid) as [t|] eqn:Ht; simpl in Hchanged; [|done].
  by exists tid, t.
Qed.

Lemma process_ticket_reply_commits_only_valid_reply_witness :
  exists tid t,
    Some 1 = Some tid /\ tid <> 0 /\ (2 <= len "Спасибо")%nat
    /\ tickets (Samples.ticket_store WAITING) !! tid = Some t.
Proof.
  apply (process_ticket_reply_commits_only_valid_reply
           (Some 1) "Спасибо" STUDENT 7 (Samples.ticket_store WAITING)).
  intros H. apply (f_equal messages) in H. vm_compute in H. discriminate H.
Defined.

(** X11: [close_ticket] checks neither the caller nor the current status: any
    stored ticket becomes [CLOSED] with [resolved_at] set, its requester and
    assignee as they were, and the log gains a message in the caller's name
    that is flagged as written by staff.  On an id that is not stored the
    handler changes nothing and still answers that the ticket is closed. *)
Theorem close_ticket_closes_for_any_caller (s : Store) (tid uid now : Z) :
  match tickets s !! tid with
  | Some t =>
      exists t' m,
        close_ticket tid uid now s
        = (mkStore (<[tid := t']> (tickets s)) (messages s ++ [m]),
           Some "✅ Обращение закрыто")
        /\ Ticket.status t' = CLOSED
        /\ Ticket.resolved_at t' = Some now
        /\ Ticket.user_id t' = Ticket.user_id t
        /\ Ticket.assigned_to_id t' = Ticket.assigned_to_id t
        /\ TicketMessage.ticket_id m = tid
        /\ TicketMessage.user_id m = uid
        /\ TicketMessage.is_from_staff m = true
        /\ TicketMessage.is_internal m = false
        /\ TicketMessage.message m
           = "Статус изменён: " +:+ TicketStatus_value (Ticket.status t)
               +:+ " → closed"
  | None => close_ticket tid uid now s = (s, Some "✅ Обращение закрыто")
  end.
Proof.
  unfold close_ticket.
  destruct (tickets s !! tid) as [t|] eqn:Ht.
  - rewrite (update_status_found _ _ _ _ _ _ _ Ht). simpl.
    eexists _, _. split; [reflexivity|]. by split_and!.
  - unfold update_status. by rewrite Ht.
Qed.

(** X12: Reopening does not clear [resolved_at]: a ticket that was closed and
    then reopened is [OPEN] and still carries the time it was closed at. *)
Theorem reopen_ticket_keeps_resolved_at (s : Store) (tid : Z) (t : Ticket.t)
    (closer opener closed_at reopened_at : Z) :
  tickets s !! tid = Some t ->
  exists t',
    tickets (fst (reopen_ticket tid opener reopened_at
                    (fst (close_ticket tid closer closed_at s)))) !! tid
    = Some t'
    /\ Ticket.status t' = OPEN
    /\ Ticket.resolved_at t' = Some closed_at.
Proof.
  intros Ht. unfold close_ticket, reopen_ticket. simpl.
  rewrite (update_status_found _ _ _ _ _ _ _ Ht). simpl.
  erewrite update_status_found by (simpl; apply lookup_insert_eq). simpl.
  rewrite lookup_insert_eq. eexists. by split_and!.
Qed.

Lemma reopen_ticket_keeps_resolved_at_witness :
  exists t',
    tickets (fst (reopen_ticket 1 7 200
                    (fst (close_ticket 1 7 100 (Samples.ticket_store RESOLVED)))))
      !! 1 = Some t'
    /\ Ticket.status t' = OPEN
    /\ Ticket.resolved_at t' = Some 100.
Proof.
  exact (reopen_ticket_keeps_resolved_at (Samples.ticket_store RESOLVED) 1
           (Samples.ticket RESOLVED) 7 7 100 200 eq_refl).
Defined.

(** X13: The two staff callbacks do nothing for a user who is neither admin nor
    moderator: nothing is stored and the callback is not answered. *)
Theorem staff_callbacks_ignore_other_roles (role : UserRole) (tid uid now : Z)
    (new_status : TicketStatus) (s : Store) :
  role <> ADMIN -> role <> MODERATOR ->
  callback_set_ticket_status role tid new_status uid now s = (s, None)
  /\ callback_admin_ticket_assign role tid uid s = (s, None).
Proof.
  intros Hadmin Hmod.
  unfold callback_set_ticket_status, callback_admin_ticket_assign.
  by destruct role.
Qed.

Lemma staff_callbacks_ignore_other_roles_witness :
  callback_set_ticket_status STUDENT 1 CLOSED 7 100 (Samples.ticket_store OPEN)
  = (Samples.ticket_store OPEN, None)
  /\ callback_admin_ticket_assign STUDENT 1 7 (Samples.ticket_store OPEN)
     = (Samples.ticket_store OPEN, None).
Proof.
  apply (staff_callbacks_ignore_other_roles STUDENT 1 7 100 CLOSED
           (Samples.ticket_store OPEN)); discriminate.
Defined.

End TicketOperations.

Section FAQOperations.
Import FAQService.

Lemma store_eta (s : Store) : mkStore (items s) (favorites s) = s.
Proof. by destruct s. Qed.

(** X15: On an id that is not stored, every operation on an item is a silent
    no-op: a view or a rating creates no item and raises nothing,
    [update_item] returns [None], [delete_item] returns [False], and the
    store is as it was. *)
Theorem item_operations_ignore_missing_id (s : Store) (i : Z) :
  items s !! i = None ->
  get_item_by_id i s = None
  /\ increment_view i s = Ok (tt, s)
  /\ (forall is_helpful, rate_item i is_helpful s = Ok (tt, s))
  /\ (forall kwargs, update_item i kwargs s = Ok (None, s))
  /\ delete_item i s = Ok (false, s).
Proof.
  intros Hi. split_and!.
  - exact Hi.
  - unfold increment_view. by rewrite alter_id', store_eta.
  - intros [|]; unfold rate_item; by rewrite alter_id', store_eta.
  - intros kwargs. unfold update_item. by rewrite Hi.
  - unfold delete_item. by rewrite Hi.
Qed.

Lemma item_operations_ignore_missing_id_witness :
  increment_view 42 Samples.faq_store = Ok (tt, Samples.faq_store)
  /\ delete_item 42 Samples.faq_store = Ok (false, Samples.faq_store).
Proof.
  destruct (item_operations_ignore_missing_id Samples.faq_store 42 eq_refl)
    as (_ & Hview & _ & _ & Hdelete).
  split; [exact Hview|exact Hdelete].
Defined.

(** X16: A new item gets an id that was not in use, is active, not pinned and
    has all three counters at zero; it is read back under its id, the other
    items and the favorites are as before, and deleting it again gives the
    store [create_item] started from.  An empty list of links is stored as
    no links. *)
Theorem create_item_is_read_back (s : Store) (category_id : Z)
    (question answer : string) (keywords : option string)
    (links : option (list (string * string))) (order : Z) :
  exists i it s',
    create_item category_id question answer keywords links order s
    = Ok ((i, it), s')
    /\ get_item_by_id i s = None
    /\ get_item_by_id i s' = Some it
    /\ (forall j, j <> i -> get_item_by_id j s' = get_item_by_id j s)
    /\ favorites s' = favorites s
    /\ counters it = (0, 0, 0)
    /\ FAQItem.is_active it = true
    /\ FAQItem.is_pinned it = false
    /\ (FAQItem.links it = None <-> links = None \/ links = Some [])
    /\ delete_item i s' = Ok (true, s).
Proof.
  unfold create_item. eexists _, _, _. split; [reflexivity|].
  pose proof (fresh_key_None (items s)) as Hnew.
  unfold get_item_by_id. simpl. split_and!; try reflexivity.
  - exact Hnew.
  - apply lookup_insert_eq.
  - intros j Hj. by apply lookup_insert_ne.
  - destruct links as [[|l ls]|]; simpl; split; intros H; auto;
      try discriminate; destruct H as [H|H]; discriminate.
  - unfold delete_item. simpl. rewrite lookup_insert_eq.
    rewrite delete_insert_id by exact Hnew. by rewrite store_eta.
Qed.

Lemma occurrences_cons (p : op -> bool) (o : op) (ops : list op) :
  occurrences p (o :: ops) = (if p o then 1 else 0) + occurrences p ops.
Proof.
  unfold occurrences. simpl. destruct (p o); simpl; lia.
Qed.

(** One operation on a store that holds item [i], with the exact move of
    each counter. *)
Lemma step_counters_exact (s : Store) (i : Z) (it : FAQItem.t) (o : op) :
  items s !! i = Some it ->
  keeps_counters i o ->
  exists it',
    items (step s o) !! i = Some it'
    /\ FAQItem.views_count it'
       = FAQItem.views_count it + (if is_view i o then 1 else 0)
    /\ FAQItem.helpful_count it'
       = FAQItem.helpful_count it + (if is_rating i true o then 1 else 0)
    /\ FAQItem.not_helpful_count it'
       = FAQItem.not_helpful_count it + (if is_rating i false o then 1 else 0).
Proof.
  intros Hi Hkeep.
  assert (Hother : ~ counts_on i o ->
            is_view i o = false /\ is_rating i true o = false
            /\ is_rating i false o = false).
  { destruct o as [c q a k l ord|j kw|j|j|j h|u j|u j]; simpl; intros Hn;
      split_and!; try reflexivity.
    - destruct (Z.eqb_spec j i); [by destruct Hn|done].
    - destruct (Z.eqb_spec j i); [by destruct Hn|done].
    - destruct (Z.eqb_spec j i); [by destruct Hn|done]. }
  destruct o as [c q a k l ord|j kw|j|j|j h|u j|u j].
  4: { destruct (decide (j = i)) as [->|Hne].
       - eexists. simpl. rewrite lookup_alter_eq, Hi, Z.eqb_refl. simpl.
         split_and!; [reflexivity|simpl; lia..].
       - destruct (step_counters s i it (op_increment_view j) Hi Hkeep)
           as (it' & Hi' & _ & Hsame).
         assert (Hn : ~ counts_on i (op_increment_view j)) by (simpl; congruence).
         specialize (Hsame Hn). destruct (Hother Hn) as (-> & -> & ->).
         exists it'. unfold counters in Hsame. injection Hsame as -> -> ->.
         split_and!; [done|lia..]. }
  4: { destruct (decide (j = i)) as [->|Hne].
       - destruct h; eexists; simpl; rewrite lookup_alter_eq, Hi, Z.eqb_refl;
           simpl; (split_and!; [reflexivity|simpl; lia..]).
       - destruct (step_counters s i it (op_rate_item j h) Hi Hkeep)
           as (it' & Hi' & _ & Hsame).
         assert (Hn : ~ counts_on i (op_rate_item j h)) by (simpl; congruence).
         specialize (Hsame Hn). destruct (Hother Hn) as (-> & -> & ->).
         exists it'. unfold counters in Hsame. injection Hsame as -> -> ->.
         split_and!; [done|lia..]. }
  all: match goal with
       | |- context [step ?s0 ?o] =>
           destruct (step_counters s0 i it o Hi Hkeep) as (it' & Hi' & _ & Hsame);
           assert (Hn : ~ counts_on i o) by (simpl; tauto);
           specialize (Hsame Hn); destruct (Hother Hn) as (-> & -> & ->);
           exists it'; unfold counters in Hsame; injection Hsame as -> -> ->;
           split_and!; [done|lia..]
       end.
Qed.

(** X17: Over any sequence of operations of which none deletes item [i] or
    passes one of its counters to [update_item], each counter of the item
    moves by exactly the number of views, of helpful ratings and of
    unhelpful ratings of [i] in the sequence: nothing is lost and nothing
    else counts. *)
Theorem counters_tally_views_and_ratings (ops : list op) (s : Store) (i : Z)
    (it : FAQItem.t) :
  items s !! i = Some it ->
  Forall (keeps_counters i) ops ->
  exists it',
    items (run ops s) !! i = Some it'
    /\ FAQItem.views_count it'
       = FAQItem.views_count it + occurrences (is_view i) ops
    /\ FAQItem.helpful_count it'
       = FAQItem.helpful_count it + occurrences (is_rating i true) ops
    /\ FAQItem.not_helpful_count it'
       = FAQItem.not_helpful_count it + occurrences (is_rating i false) ops.
Proof.
  revert s it. induction ops as [|o ops IH]; intros s it Hi Hops.
  - exists it. unfold occurrences. simpl. split_and!; [done|lia..].
  - inversion Hops as [|? ? Ho Hrest]; subst.
    destruct (step_counters_exact s i it o Hi Ho) as (it1 & H1 & Hv & Hh & Hn).
    destruct (IH (step s o) it1 H1 Hrest) as (it' & H' & Hv' & Hh' & Hn').
    exists it'. rewrite !occurrences_cons. split_and!; [exact H'|lia..].
Qed.

Lemma counters_tally_views_and_ratings_witness :
  exists it',
    items (run [op_increment_view 1; op_rate_item 1 true; op_increment_view 2;
                op_delete_item 2; op_increment_view 1] Samples.faq_store) !! 1
    = Some it'
    /\ FAQItem.views_count it' = 7
    /\ FAQItem.helpful_count it' = 3
    /\ FAQItem.not_helpful_count it' = 1.
Proof.
  destruct (counters_tally_views_and_ratings
              [op_increment_view 1; op_rate_item 1 true; op_increment_view 2;
               op_delete_item 2; op_increment_view 1]
              Samples.faq_store 1 (Samples.faq_item 5 2 1) eq_refl)
    as (it' & Hi & Hv & Hh & Hn).
  { repeat (apply Forall_cons; split; [simpl; first [exact I | lia]|]).
    constructor. }
  exists it'. split_and!; [exact Hi|exact Hv|exact Hh|exact Hn].
Defined.

(** *** Favorites *)

Lemma select_favorite_pair (u i : Z) (s : Store) (f : UserFavorite.t) :
  f ∈ select_favorite u i s <-> f ∈ favorites s /\ favorite_pair f = (u, i).
Proof.
  unfold select_favorite, favorite_pair. rewrite list_elem_of_filter.
  split.
  - intros [[-> ->] Hin]. by split.
  - intros [Hin Heq]. injection Heq as -> ->. by split.
Qed.

Lemma NoDup_fmap_filter {A B : Type} (f : A -> B) (P : A -> Prop)
    `{forall x, Decision (P x)} (l : list A) :
  NoDup (map f l) -> NoDup (map f (filter P l)).
Proof.
  induction l as [|a l IH]; simpl; intros Hnd; [constructor|].
  apply NoDup_cons in Hnd as [Ha Hnd]. rewrite filter_cons.
  destruct (decide (P a)); [|by apply IH].
  simpl. apply NoDup_cons. split; [|by apply IH].
  intros Hin. apply Ha. apply list_elem_of_fmap in Hin as (x & -> & Hx).
  apply list_elem_of_fmap. exists x. split; [done|].
  by apply list_elem_of_filter in Hx as [_ Hx].
Qed.

Lemma filter_ext_elem_of {A : Type} (P Q : A -> Prop)
    `{forall x, Decision (P x)} `{forall x, Decision (Q x)} (l : list A) :
  (forall x, x ∈ l -> P x <-> Q x) -> filter P l = filter Q l.
Proof.
  induction l as [|a l IH]; intros Hl; [reflexivity|].
  rewrite !filter_cons.
  assert (Ha : P a <-> Q a) by (apply Hl; left).
  rewrite IH by (intros x Hx; apply Hl; by right).
  destruct (decide (P a)), (decide (Q a)); tauto || reflexivity.
Qed.

Lemma NoDup_fmap_inj_on {A B : Type} (f : A -> B) (l : list A) (x y : A) :
  NoDup (map f l) -> x ∈ l -> y ∈ l -> f x = f y -> x = y.
Proof.
  induction l as [|a l IH]; simpl; intros Hnd Hx Hy Heq.
  - by apply elem_of_nil in Hx.
  - apply NoDup_cons in Hnd as [Ha Hnd].
    apply elem_of_cons in Hx as [->|Hx]; apply elem_of_cons in Hy as [->|Hy].
    + reflexivity.
    + exfalso. apply Ha. rewrite Heq. apply list_elem_of_fmap. by exists y.
    + exfalso. apply Ha. rewrite <- Heq. apply list_elem_of_fmap. by exists x.
    + by apply IH.
Qed.

(** Under the unique index a pair selects no row or one row. *)
Lemma select_favorite_at_most_one (u i : Z) (s : Store) :
  NoDup (map favorite_pair (favorites s)) ->
  select_favorite u i s = [] \/ exists f, select_favorite u i s = [f].
Proof.
  unfold select_favorite. generalize (favorites s) as l.
  induction l as [|a l IH]; intros Hnd; [by left|].
  simpl in Hnd. apply NoDup_cons in Hnd as [Ha Hnd].
  rewrite filter_cons. destruct (decide _) as [[Hu Hi]|Hno]; [|by apply IH].
  right. exists a. f_equal. apply filter_none. intros x Hx [Hxu Hxi].
  apply Ha. apply list_elem_of_fmap. exists x. split; [|done].
  unfold favorite_pair. congruence.
Qed.

Lemma step_favorites_consistent (s : Store) (o : op) :
  favorites_consistent s -> favorites_consistent (step s o).
Proof.
  intros [Hids Hpairs].
  destruct o as [c q a k l ord|j kw|j|j|j h|u j|u j]; simpl.
  - by split.
  - unfold update_item. by destruct (items s !! j).
  - unfold delete_item. by destruct (items s !! j).
  - by split.
  - by destruct h.
  - unfold add_to_favorites.
    destruct (select_favorite_at_most_one u j s Hpairs) as [Hsel|[f Hsel]];
      rewrite Hsel; simpl; [|by split].
    split; simpl; rewrite map_app; simpl; apply NoDup_app; split_and!;
      try done; try apply NoDup_singleton.
    + intros x Hx Hnew. apply list_elem_of_singleton in Hnew. subst x.
      apply fresh_row_id_above in Hx. lia.
    + intros x Hx Hnew. apply list_elem_of_singleton in Hnew. subst x.
      apply list_elem_of_fmap in Hx as (f & Hf & Hin).
      assert (Hsome : f ∈ select_favorite u j s)
        by (by apply select_favorite_pair).
      rewrite Hsel in Hsome. by apply elem_of_nil in Hsome.
  - unfold remove_from_favorites.
    destruct (select_favorite_at_most_one u j s Hpairs) as [Hsel|[f Hsel]];
      rewrite Hsel; simpl; [by split|].
    split; simpl; by apply NoDup_fmap_filter.
Qed.

(** X18: The service keeps the table of favorites consistent by its own checks:
    over any sequence of operations the ids stay distinct and no
    (user, item) pair is stored twice, so no operation on favorites raises
    and [is_favorite] answers whether the pair is stored. *)
Theorem favorites_stay_consistent (ops : list op) (s : Store) :
  favorites_consistent s ->
  favorites_consistent (run ops s)
  /\ forall u i,
       is_favorite u i (run ops s)
       = Ok (bool_decide ((u, i) ∈ map favorite_pair (favorites (run ops s))))
       /\ (exists added s', add_to_favorites u i (run ops s) = Ok (added, s'))
       /\ (exists removed s',
             remove_from_favorites u i (run ops s) = Ok (removed, s')).
Proof.
  revert s. induction ops as [|o ops IH]; intros s Hs.
  2: { simpl. apply IH. by apply step_favorites_consistent. }
  simpl. split; [exact Hs|]. intros u i. destruct Hs as [Hids Hpairs].
  unfold is_favorite, add_to_favorites, remove_from_favorites.
  destruct (select_favorite_at_most_one u i s Hpairs) as [Hsel|[f Hsel]];
    rewrite Hsel; simpl.
  - split_and!; [|by eexists _, _..]. f_equal. symmetry.
    apply bool_decide_eq_false. intros Hin.
    apply list_elem_of_fmap in Hin as (f & Hf & Hin).
    assert (Hsome : f ∈ select_favorite u i s)
      by (by apply select_favorite_pair).
    rewrite Hsel in Hsome. by apply elem_of_nil in Hsome.
  - split_and!; [|by eexists _, _..]. f_equal. symmetry.
    apply bool_decide_eq_true.
    assert (Hf : f ∈ select_favorite u i s) by (rewrite Hsel; by left).
    apply select_favorite_pair in Hf as [Hin Hpair].
    apply list_elem_of_fmap. by exists f.
Qed.

Lemma favorites_stay_consistent_witness :
  favorites_consistent
    (run [op_add_to_favorites 7 1; op_add_to_favorites 7 1;
          op_add_to_favorites 8 1; op_remove_from_favorites 7 1]
         Samples.faq_store)
  /\ is_favorite 8 1
       (run [op_add_to_favorites 7 1; op_add_to_favorites 7 1;
             op_add_to_favorites 8 1; op_remove_from_favorites 7 1]
            Samples.faq_store)
     = Ok true.
Proof.
  destruct (favorites_stay_consistent
              [op_add_to_favorites 7 1; op_add_to_favorites 7 1;
               op_add_to_favorites 8 1; op_remove_from_favorites 7 1]
              Samples.faq_store) as [Hc Hfav].
  { split; simpl; apply NoDup_nil_2. }
  split; [exact Hc|]. destruct (Hfav 8 1) as [-> _]. reflexivity.
Defined.

(** X19: Adding or removing a favorite touches one (user, item) pair only: for
    every other pair the selected rows, and so the answer of
    [is_favorite], are as before. *)
Theorem favorites_of_other_pairs_untouched (s : Store) (u i u' i' : Z) :
  favorites_consistent s ->
  (u', i') <> (u, i) ->
  select_favorite u' i' (step s (op_add_to_favorites u i))
  = select_favorite u' i' s
  /\ select_favorite u' i' (step s (op_remove_from_favorites u i))
     = select_favorite u' i' s
  /\ is_favorite u' i' (step s (op_add_to_favorites u i)) = is_favorite u' i' s
  /\ is_favorite u' i' (step s (op_remove_from_favorites u i))
     = is_favorite u' i' s.
Proof.
  intros [Hids Hpairs] Hne.
  assert (Hadd : select_favorite u' i' (step s (op_add_to_favorites u i))
                 = select_favorite u' i' s).
  { simpl. unfold add_to_favorites.
    destruct (select_favorite_at_most_one u i s Hpairs) as [Hsel|[f Hsel]];
      rewrite Hsel; simpl; [|reflexivity].
    unfold select_favorite. simpl. rewrite filter_app.
    rewrite filter_cons_False by (simpl; intros [-> ->]; by apply Hne).
    by rewrite filter_nil, app_nil_r. }
  assert (Hrem : select_favorite u' i' (step s (op_remove_from_favorites u i))
                 = select_favorite u' i' s).
  { simpl. unfold remove_from_favorites.
    destruct (select_favorite_at_most_one u i s Hpairs) as [Hsel|[f Hsel]];
      rewrite Hsel; simpl; [reflexivity|].
    assert (Hf : f ∈ select_favorite u i s) by (rewrite Hsel; by left).
    apply select_favorite_pair in Hf as [Hin Hpair].
    unfold select_favorite. simpl. rewrite list_filter_filter.
    apply filter_ext_elem_of. intros x Hxin. split; [by intros [? ?]|].
    intros Hx. split; [exact Hx|]. intros Hid.
    assert (x = f)
      by (by apply (NoDup_fmap_inj_on UserFavorite.id (favorites s))).
    subst x. apply Hne. destruct Hx as [<- <-]. by symmetry. }
  split_and!; [exact Hadd|exact Hrem| |].
  - unfold is_favorite. by rewrite Hadd.
  - unfold is_favorite. by rewrite Hrem.
Qed.

Lemma favorites_of_other_pairs_untouched_witness :
  is_favorite 7 1
    (step (mkStore (items Samples.faq_store)
                   [UserFavorite.mk 1 7 1; UserFavorite.mk 2 8 1])
          (op_remove_from_favorites 8 1))
  = Ok true.
Proof.
  destruct (favorites_of_other_pairs_untouched
              (mkStore (items Samples.faq_store)
                       [UserFavorite.mk 1 7 1; UserFavorite.mk 2 8 1])
              8 1 7 1) as (_ & _ & _ & ->).
  - split; simpl; repeat constructor; set_solver.
  - discriminate.
  - reflexivity.
Defined.

(** *** The totals of [get_stats] *)

Lemma alter_stored {V : Type} (f : V -> V) (m : gmap Z V) (i : Z) (x : V) :
  m !! i = Some x -> alter f i m = <[i := f x]> m.
Proof.
  intros Hi. apply map_eq. intros j. destruct (decide (j = i)) as [->|Hne].
  - by rewrite lookup_alter_eq, lookup_insert_eq, Hi.
  - by rewrite lookup_alter_ne, lookup_insert_ne.
Qed.

Lemma sum_column_delete (column : FAQItem.t -> Z) (s : Store) (i : Z)
    (it : FAQItem.t) :
  items s !! i = Some it ->
  sum_column column (mkStore (delete i (items s)) (favorites s))
  = sum_column column s - column it.
Proof.
  intros Hi. unfold sum_column. simpl.
  rewrite (map_fold_delete_L _ 0 i it (items s)); [lia| |exact Hi].
  intros. lia.
Qed.

Lemma sum_column_replace (column : FAQItem.t -> Z) (s : Store) (i : Z)
    (it it' : FAQItem.t) :
  items s !! i = Some it ->
  sum_column column (mkStore (<[i := it']> (items s)) (favorites s))
  = sum_column column s - column it + column it'.
Proof.
  intros Hi. rewrite <- (sum_column_delete column s i it Hi).
  unfold sum_column. simpl. rewrite <- insert_delete_eq.
  rewrite map_fold_insert_L; [lia| |apply lookup_delete_eq].
  intros. lia.
Qed.

Lemma items_count_replace (s : Store) (i : Z) (it it' : FAQItem.t) :
  items s !! i = Some it ->
  items_count (mkStore (<[i := it']> (items s)) (favorites s))
  = items_count s - (if FAQItem.is_active it then 1 else 0)
    + (if FAQItem.is_active it' then 1 else 0).
Proof.
  intros Hi. unfold items_count. simpl.
  set (P := fun kv : Z * FAQItem.t => FAQItem.is_active (snd kv) = true).
  assert (Hold : Z.of_nat (size (filter P (items s)))
                 = Z.of_nat (size (filter P (delete i (items s))))
                   + (if FAQItem.is_active it then 1 else 0)).
  { rewrite <- (insert_delete_id (items s) i it Hi) at 1.
    destruct (FAQItem.is_active it) eqn:Hact.
    - rewrite map_filter_insert_True by exact Hact.
      rewrite map_size_insert_None; [lia|].
      apply map_lookup_filter_None. left. apply lookup_delete_eq.
    - rewrite map_filter_insert_False by (unfold P; simpl; congruence).
      rewrite delete_delete_eq. lia. }
  rewrite Hold. rewrite <- insert_delete_eq.
  destruct (FAQItem.is_active it') eqn:Hact'.
  - rewrite map_filter_insert_True by exact Hact'.
    rewrite map_size_insert_None.
    + destruct (FAQItem.is_active it); lia.
    + apply map_lookup_filter_None. left. apply lookup_delete_eq.
  - rewrite map_filter_insert_False by (unfold P; simpl; congruence).
    rewrite delete_delete_eq. destruct (FAQItem.is_active it); lia.
Qed.

(** X20: How the totals of [get_stats] follow the operations on a stored item:
    a view adds one to the total of views and a rating one to the total of
    its kind, nothing else moving; hiding the item takes it out of the
    count of items while its views and ratings stay in the totals; deleting
    it takes them out. *)
Theorem get_stats_totals_follow_item (s : Store) (i : Z) (it : FAQItem.t) :
  items s !! i = Some it ->
  (let s' := step s (op_increment_view i) in
   total_views s' = total_views s + 1
   /\ total_helpful s' = total_helpful s
   /\ total_not_helpful s' = total_not_helpful s
   /\ items_count s' = items_count s)
  /\ (let s' := step s (op_rate_item i true) in
      total_views s' = total_views s
      /\ total_helpful s' = total_helpful s + 1
      /\ total_not_helpful s' = total_not_helpful s)
  /\ (let s' := step s (op_rate_item i false) in
      total_views s' = total_views s
      /\ total_helpful s' = total_helpful s
      /\ total_not_helpful s' = total_not_helpful s + 1)
  /\ (let s' := step s (op_update_item i [kw_is_active false]) in
      total_views s' = total_views s
      /\ total_helpful s' = total_helpful s
      /\ total_not_helpful s' = total_not_helpful s
      /\ items_count s'
         = items_count s - (if FAQItem.is_active it then 1 else 0))
  /\ (let s' := step s (op_delete_item i) in
      total_views s' = total_views s - FAQItem.views_count it
      /\ total_helpful s' = total_helpful s - FAQItem.helpful_count it
      /\ total_not_helpful s' = total_not_helpful s - FAQItem.not_helpful_count it).
Proof.
  intros Hi. unfold total_views, total_helpful, total_not_helpful.
  split_and!; simpl.
  1-4: rewrite (alter_stored _ _ _ _ Hi).
  5-7: rewrite (alter_stored _ _ _ _ Hi).
  8-10: rewrite (alter_stored _ _ _ _ Hi).
  11-14: unfold update_item; rewrite Hi; simpl.
  15-17: unfold delete_item; rewrite Hi; simpl.
  1-3,5-13: rewrite (sum_column_replace _ s i it _ Hi); destruct it; simpl; lia.
  1-2: rewrite (items_count_replace s i it _ Hi); destruct it as [? ? ? ? ? ? ? ? ? [|] ?]; simpl; lia.
  all: by apply sum_column_delete.
Qed.

Lemma get_stats_totals_follow_item_witness :
  total_views Samples.faq_store = 5
  /\ total_views (step Samples.faq_store (op_increment_view 1)) = 6
  /\ total_views (step Samples.faq_store (op_update_item 1 [kw_is_active false]))
     = 5
  /\ items_count (step Samples.faq_store (op_update_item 1 [kw_is_active false]))
     = 0.
Proof.
  destruct (get_stats_totals_follow_item Samples.faq_store 1
              (Samples.faq_item 5 2 1) eq_refl)
    as ((Hview & _) & _ & _ & (Hhide & _ & _ & Hcount) & _).
  split_and!.
  - vm_compute. reflexivity.
  - rewrite Hview. vm_compute. reflexivity.
  - rewrite Hhide. vm_compute. reflexivity.
  - rewrite Hcount. vm_compute. reflexivity.
Defined.

End FAQOperations.

Section SearchCompleteness.
Context {A : Type}.
Variable text_of : A -> string.
Variable token_set_ratio : string -> string -> Q.
Variable query : string.

Abbreviation score_of' := (Ranking.score_of text_of token_set_ratio query).
Abbreviation scored' := (Ranking.scored text_of token_set_ratio query).
Abbreviation passes' := (Ranking.passes text_of token_set_ratio query).

Lemma insert_desc_Permutation {B : Type} (key : B -> Q) (x : B) (l : list B) :
  Fuzz.insert_desc key x l ≡ₚ x :: l.
Proof.
  induction l as [|y l IH]; simpl; [reflexivity|].
  destruct (Qle_bool (key y) (key x)); [reflexivity|].
  rewrite IH. apply perm_swap.
Qed.

Lemma sort_desc_Permutation {B : Type} (key : B -> Q) (l : list B) :
  Fuzz.sort_desc key l ≡ₚ l.
Proof.
  induction l as [|y l IH]; simpl; [reflexivity|].
  by rewrite insert_desc_Permutation, IH.
Qed.

(** Cutting the sorted pool to [2 * limit] matches before the threshold is
    applied loses none of the first [limit] matches. *)
Lemma window_loses_nothing (items : list (Z * A)) (limit : nat) (threshold : Z) :
  take limit
       (filter (passes' threshold)
               (take (limit * 2) (Fuzz.sort_desc score_of' items)))
  = take limit (filter (passes' threshold) (Fuzz.sort_desc score_of' items)).
Proof.
  set (S := Fuzz.sort_desc score_of' items).
  destruct (filter_threshold_prefix score_of' (inject_Z threshold) S)
    as (rest & H1 & Hrest); [apply sort_desc_sorted|].
  change (filter _ S) with (filter (passes' threshold) S) in H1.
  set (F := filter (passes' threshold) S) in *.
  rewrite H1 at 1. rewrite take_app, filter_app.
  rewrite (filter_all (passes' threshold) (take (limit * 2) F)).
  2: { intros c Hc. apply subseteq_take in Hc.
       by apply list_elem_of_filter in Hc as [Hp _]. }
  rewrite (filter_none (passes' threshold) (take _ rest)).
  2: { intros c Hc Hp. apply subseteq_take in Hc. apply Hrest in Hc.
       unfold Ranking.passes in Hp. apply Qle_bool_iff in Hp.
       by apply Qlt_not_le in Hc. }
  rewrite app_nil_r, take_take. f_equal. lia.
Qed.

Lemma search_complete (items : list (Z * A)) (limit : nat) (threshold : Z) :
  NoDup (map fst items) ->
  exists res,
    Search.search text_of token_set_ratio items query limit threshold = Some res
    /\ res = map scored'
                 (take limit (matching text_of token_set_ratio query threshold
                                       (Fuzz.sort_desc score_of' items)))
    /\ complete text_of token_set_ratio query items limit threshold res.
Proof.
  intros Hnd. rewrite (search_eq text_of token_set_ratio query items limit threshold Hnd).
  rewrite window_loses_nothing. eexists. split; [reflexivity|].
  split; [reflexivity|].
  unfold complete, matching.
  set (S := Fuzz.sort_desc score_of' items).
  assert (Hperm : filter (passes' threshold) S ≡ₚ filter (passes' threshold) items).
  { apply filter_Permutation, sort_desc_Permutation. }
  pose proof (Permutation_length Hperm) as Hlen.
  split_and!.
  - rewrite length_map, length_take. lia.
  - intros Hfew c Hc. rewrite take_ge by lia.
    apply list_elem_of_fmap. exists c. split; [reflexivity|].
    by rewrite Hperm.
  - split.
    + intros Hnil. apply (f_equal length) in Hnil.
      rewrite length_map, length_take in Hnil. simpl in Hnil.
      destruct limit as [|n]; [by left|]. right.
      apply length_zero_iff_nil. lia.
    + intros [->|Hnone]; [reflexivity|].
      rewrite Hnone in Hlen. simpl in Hlen.
      apply length_zero_iff_nil in Hlen. rewrite Hlen.
      by rewrite take_nil.
Qed.

End SearchCompleteness.

(** X21: Over the active rows of FAQ items, and likewise of documents, rows with
    distinct keys, [search] leaves out no match it has room for: asking the
    scorer for [2 * limit] matches before the threshold is applied costs
    nothing.  The result holds [limit] candidates, or every candidate at or
    above the threshold when these are fewer, and it is empty only when
    the limit is zero or nothing reaches the threshold. *)
Theorem search_leaves_out_no_match (token_set_ratio : string -> string -> Q)
    (query : string) (limit : nat) (threshold : Z) :
  (forall rows : list (Z * FAQItem.t),
      NoDup (map fst rows) ->
      exists res,
        FAQSearch.search token_set_ratio rows query limit threshold = Some res
        /\ complete FAQSearch.search_text token_set_ratio query
                    (FAQSearch.active_items rows) limit threshold res)
  /\ (forall rows : list (Z * Document.t),
         NoDup (map fst rows) ->
         exists res,
           DocumentService.search token_set_ratio rows query limit threshold
           = Some res
           /\ complete DocumentService.search_text token_set_ratio query
                       (DocumentService.active_documents rows) limit threshold res).
Proof.
  split; intros rows Hnd.
  - destruct (search_complete FAQSearch.search_text token_set_ratio query
                (FAQSearch.active_items rows) limit threshold)
      as (res & Hres & _ & Hc); [by apply NoDup_keys_filter|].
    by exists res.
  - destruct (search_complete DocumentService.search_text token_set_ratio query
                (DocumentService.active_documents rows) limit threshold)
      as (res & Hres & _ & Hc); [by apply NoDup_keys_filter|].
    by exists res.
Qed.

Lemma search_leaves_out_no_match_witness :
  NoDup (map fst Samples.faq_rows)
  /\ exists res,
       FAQSearch.search Samples.scorer Samples.faq_rows "стипендия" 5 50
       = Some res
       /\ complete FAQSearch.search_text Samples.scorer "стипендия"
                   (FAQSearch.active_items Samples.faq_rows) 5 50 res.
Proof.
  assert (Hnd : NoDup (map fst Samples.faq_rows)).
  { apply (bool_decide_unpack _). vm_compute. exact I. }
  split; [exact Hnd|].
  apply (search_leaves_out_no_match Samples.scorer "стипендия" 5 50).
  exact Hnd.
Defined.

Section NotificationOperations.
Import NotificationService.

Lemma UserRole_of_value_value (role : UserRole) :
  UserRole_of_value (UserRole_value role) = Some role.
Proof. by destruct role. Qed.

Lemma NoDup_keys_execute (q : query) (users : gmap Z User.t) :
  NoDup (map fst (execute q users)).
Proof.
  unfold execute. apply NoDup_keys_filter, NoDup_fst_map_to_list.
Qed.

(** X22: Who a notification goes to: stored users who are active and have
    notifications switched on, each at most once, and among them those who
    pass every filter that is set.  A role that is the value of a member of
    [UserRole] restricts the targets to that role; a group, faculty or
    course that is set (not empty, not [0]) restricts them to it; a
    notification with no filter set goes to every active user with
    notifications on. *)
Theorem get_target_users_selects (n : Notification.t) (users : gmap Z User.t) :
  NoDup (map fst (get_target_users n users))
  /\ (forall k u,
        (k, u) ∈ get_target_users n users
        <-> users !! k = Some u
            /\ User.is_active u = true
            /\ User.notifications_enabled u = true
            /\ passes_role n u
            /\ passes_filters n u)
  /\ (forall role k u,
        Notification.target_role n = Some (UserRole_value role) ->
        (k, u) ∈ get_target_users n users -> User.role u = role)
  /\ (forall g k u,
        Notification.target_group n = Some g -> g <> "" ->
        (k, u) ∈ get_target_users n users -> User.group_name u = Some g)
  /\ (forall c k u,
        Notification.target_course n = Some c -> c <> 0 ->
        (k, u) ∈ get_target_users n users -> User.course u = Some c)
  /\ (forall f k u,
        Notification.target_faculty n = Some f -> f <> "" ->
        (k, u) ∈ get_target_users n users -> User.faculty u = Some f)
  /\ (Notification.target_role n = None ->
      Notification.target_group n = None ->
      Notification.target_course n = None ->
      Notification.target_faculty n = None ->
      forall k u,
        (k, u) ∈ get_target_users n users
        <-> users !! k = Some u
            /\ User.is_active u = true
            /\ User.notifications_enabled u = true).
Proof.
  split_and!.
  - unfold get_target_users. apply NoDup_keys_execute.
  - apply elem_of_get_target_users.
  - intros role k u Hr Hin.
    apply elem_of_get_target_users in Hin as (_ & _ & _ & Hrole & _).
    unfold passes_role in Hrole. rewrite Hr in Hrole. simpl in Hrole.
    apply Hrole; [by destruct role|apply UserRole_of_value_value].
  - intros g k u Hg Hne Hin.
    apply elem_of_get_target_users in Hin as (_ & _ & _ & _ & Hf & _).
    rewrite Hg in Hf. apply Hf. simpl.
    destruct (String.eqb_spec g ""); [done|reflexivity].
  - intros c k u Hc Hne Hin.
    apply elem_of_get_target_users in Hin as (_ & _ & _ & _ & _ & Hf & _).
    rewrite Hc in Hf. apply Hf. simpl.
    destruct (Z.eqb_spec c 0); [done|reflexivity].
  - intros f k u Hfa Hne Hin.
    apply elem_of_get_target_users in Hin as (_ & _ & _ & _ & _ & _ & Hf).
    rewrite Hfa in Hf. apply Hf. simpl.
    destruct (String.eqb_spec f ""); [done|reflexivity].
  - intros Hr Hg Hc Hf k u. rewrite elem_of_get_target_users.
    unfold passes_role, passes_filters. rewrite Hr, Hg, Hc, Hf. simpl.
    naive_solver.
Qed.

(** X23: A user who blocked the bot is not written to again: after a dispatch,
    the users any later notification targets are those it would have
    targeted before, less the recipients whose send raised
    [TelegramForbiddenError]. *)
Theorem blocked_recipients_leave_later_dispatches (bot : Bot)
    (n later : Notification.t) (now : Z) (users : gmap Z User.t) :
  exists count n' p,
    send_notification (Some bot) n now users = Ok (count, (n', p))
    /\ forall k u,
         (k, u) ∈ get_target_users later (NotificationService.users p)
         <-> (k, u) ∈ get_target_users later users
             /\ k ∉ map fst (forbidden bot (notification_text n)
                                       (get_target_users n users)).
Proof.
  eexists _, _, _. split; [reflexivity|].
  intros k u.
  destruct (send_loop bot (notification_text n) (get_target_users n users)
                      (mkProgress 0 users [])) as (_ & _ & Hu).
  cbn [NotificationService.users] in Hu.
  rewrite !elem_of_get_target_users, (Hu k).
  destruct (decide (k ∈ map fst _)) as [Hin|Hout].
  - split; [|by intros [_ ?]].
    intros (Hk & Hact & _). exfalso.
    destruct (users !! k) as [u0|]; simpl in Hk; [|discriminate].
    injection Hk as <-. simpl in Hact. discriminate.
  - naive_solver.
Qed.

(** *** Pending notifications *)

Lemma elem_of_get_pending_notifications (now : Z) (table : gmap Z Notification.t)
    (k : Z) (n : Notification.t) :
  (k, n) ∈ get_pending_notifications now table
  <-> table !! k = Some n /\ pending now (k, n).
Proof.
  unfold get_pending_notifications.
  rewrite list_elem_of_filter, elem_of_map_to_list. tauto.
Qed.

(** X24: A new notification is stored under an id that was free, active and not
    sent; it is pending from the time it is scheduled at, at once when it
    has no schedule.  Once [send_notification] has marked it, with the time
    and the count of the dispatch, it is never pending again, so it is not
    dispatched twice. *)
Theorem notification_is_pending_until_sent (title message : string)
    (target_role target_group : option string) (target_course : option Z)
    (target_faculty : option string) (scheduled_at : option Z)
    (table : gmap Z Notification.t) :
  exists id n table',
    create_notification title message target_role target_group target_course
                        target_faculty scheduled_at table
    = Ok ((id, n), table')
    /\ table !! id = None
    /\ table' !! id = Some n
    /\ (forall k, k <> id -> table' !! k = table !! k)
    /\ (forall now,
          (id, n) ∈ get_pending_notifications now table'
          <-> match scheduled_at with
              | None => True
              | Some at_ => at_ <= now
              end)
    /\ (forall bot sent_at users,
          exists count sent p,
            send_notification (Some bot) n sent_at users = Ok (count, (sent, p))
            /\ Notification.is_sent sent = true
            /\ Notification.sent_at sent = Some sent_at
            /\ Notification.sent_count sent = count
            /\ forall now k,
                 (k, sent) ∉ get_pending_notifications now (<[id := sent]> table')).
Proof.
  unfold create_notification. eexists _, _, _. split; [reflexivity|].
  pose proof (fresh_key_None table) as Hnew.
  split_and!.
  - exact Hnew.
  - apply lookup_insert_eq.
  - intros k Hk. by apply lookup_insert_ne.
  - intros now. rewrite elem_of_get_pending_notifications, lookup_insert_eq.
    unfold pending. simpl. naive_solver.
  - intros bot sent_at users. eexists _, _, _. split; [reflexivity|].
    split_and!; try reflexivity.
    intros now k Hin. apply elem_of_get_pending_notifications in Hin as [_ Hp].
    destruct Hp as (_ & Hsent & _). simpl in Hsent. discriminate.
Qed.

(** *** Messages to the staff *)

Lemma notify_loop (bot : Bot) (text : string) (mods : list (Z * User.t))
    (acc : Z * list (Z * string)) :
  fold_left (notify_one bot text) mods acc
  = (fst acc + Z.of_nat (length mods)
       - Z.of_nat (length (failed bot text mods)),
     snd acc ++ map (fun r => (User.telegram_id (snd r), text)) mods).
Proof.
  revert acc. induction mods as [|r mods IH]; intros [c a].
  - simpl. rewrite app_nil_r. f_equal. lia.
  - cbn [fold_left]. rewrite IH. unfold failed. rewrite filter_cons.
    unfold notify_one. cbn [fst snd map length].
    destruct (bot (User.telegram_id (snd r)) text) eqn:Hb; cbn [fst snd];
      case_decide; try congruence; cbn [length];
      rewrite <- app_assoc; f_equal; lia.
Qed.

Lemma elem_of_moderators (users : gmap Z User.t) (k : Z) (u : User.t) :
  (k, u) ∈ moderators users
  <-> users !! k = Some u
      /\ (User.role u = ADMIN \/ User.role u = MODERATOR)
      /\ User.is_active u = true.
Proof.
  unfold moderators. rewrite elem_of_execute. unfold clauses_hold.
  split.
  - intros [Hk Hq]. split; [exact Hk|]. split.
    + pose proof (Hq (fun u => existsb (fun r => bool_decide (User.role u = r))
                                       [ADMIN; MODERATOR])
                     ltac:(by left)) as H.
      simpl in H. destruct (User.role u); simpl in H; try discriminate; auto.
    + apply (Hq User.is_active). right. by left.
  - intros (Hk & Hrole & Hact). split; [exact Hk|]. intros c Hc.
    apply elem_of_cons in Hc as [->|Hc].
    + simpl. destruct Hrole as [Hr | Hr]; rewrite Hr; reflexivity.
    + apply list_elem_of_singleton in Hc as ->. exact Hact.
Qed.

(** X25: [send_to_moderators] writes once to every active admin and moderator,
    whether or not they switched notifications off, goes on after a send
    that fails, and returns the number of sends that succeeded; without a
    bot instance it raises [ValueError] and sends nothing. *)
Theorem send_to_moderators_reaches_active_staff (bot : Bot) (text : string)
    (users : gmap Z User.t) :
  send_to_moderators None text users
  = Raise (ValueError "Bot instance not provided")
  /\ exists count attempts,
       send_to_moderators (Some bot) text users = Ok (count, attempts)
       /\ attempts
          = map (fun r => (User.telegram_id (snd r), text)) (moderators users)
       /\ count = Z.of_nat (length (moderators users))
                  - Z.of_nat (length (failed bot text (moderators users)))
       /\ 0 <= count <= Z.of_nat (length (moderators users))
       /\ NoDup (map fst (moderators users))
       /\ forall k u,
            (k, u) ∈ moderators users
            <-> users !! k = Some u
                /\ (User.role u = ADMIN \/ User.role u = MODERATOR)
                /\ User.is_active u = true.
Proof.
  split; [reflexivity|].
  unfold send_to_moderators. rewrite notify_loop. simpl.
  eexists _, _. split; [reflexivity|].
  assert (Hle : (length (failed bot text (moderators users))
                 <= length (moderators users))%nat).
  { unfold failed. apply length_filter. }
  split_and!; try reflexivity; try lia.
  - apply NoDup_keys_execute.
  - apply elem_of_moderators.
Qed.

End NotificationOperations.

Section StoreAndNotify.
Import TicketService NotificationService TicketNotifications.

Lemma create_ticket_is_found_again_generic (s : TicketService.Store)
    (user : Z) (subject description : string) (category : option string)
    (priority : Z) (is_anonymous : bool) (prefix suffix : string) :
  number_taken (_generate_ticket_number prefix suffix) s = false ->
  exists tid t s',
    create_ticket user subject description category priority is_anonymous
                  prefix suffix s = Ok ((tid, t), s')
    /\ get_ticket_by_number (_generate_ticket_number prefix suffix) s'
       = Ok (Some (tid, t))
    /\ Ticket.priority t = priority
    /\ Ticket.subject t = subject
    /\ Ticket.ticket_number t = _generate_ticket_number prefix suffix.
Proof.
  intros Hfree. unfold create_ticket. rewrite Hfree.
  eexists _, _, _. split; [reflexivity|].
  pose proof (fresh_key_None (tickets s)) as Hnew.
  set (tid := fresh_key (tickets s)) in *.
  set (t := Ticket.mk _ _ _ _ _ _ _ _ _ _).
  assert (Hperm : map_to_list (<[tid := t]> (tickets s))
                  ≡ₚ (tid, t) :: map_to_list (tickets s))
    by (by apply map_to_list_insert).
  split_and!; try reflexivity.
  unfold get_ticket_by_number. simpl.
  rewrite (scalar_one_or_none_Permutation _ _
             (filter_Permutation _ _ _ Hperm)).
  rewrite filter_cons_True by reflexivity.
  replace (filter _ (map_to_list (tickets s))) with (@nil (Z * Ticket.t));
    [reflexivity|].
  symmetry. apply filter_none. intros [k x] Hin Heq.
  apply elem_of_map_to_list in Hin.
  by apply (proj1 (number_taken_false _ s) Hfree k x).
Qed.

(** X26: [confirm_ticket] stores the ticket with priority 1 and then writes to
    every active admin and moderator a text that carries the number and the
    subject of the ticket; the requester is answered with the same number.
    When the generated number is in use the handler fails with the
    [IntegrityError] of the service: nothing is stored and nobody is
    notified. *)
Theorem confirm_ticket_notifies_staff (bot : Bot) (user_id : Z)
    (subject description : string) (category : option string)
    (is_anonymous : bool) (prefix suffix : string) (users : gmap Z User.t)
    (s : TicketService.Store) :
  let number := _generate_ticket_number prefix suffix in
  if number_taken number s
  then confirm_ticket bot user_id subject description category is_anonymous
                      prefix suffix users s
       = Raise (IntegrityError "tickets.ticket_number")
  else exists tid t s',
      confirm_ticket bot user_id subject description category is_anonymous
                     prefix suffix users s
      = Ok (s',
            map (fun r => (User.telegram_id (snd r), new_ticket_text number subject))
                (moderators users),
            Some (created_text number))
      /\ create_ticket user_id subject description category 1 is_anonymous
                       prefix suffix s = Ok ((tid, t), s')
      /\ get_ticket_by_number number s' = Ok (Some (tid, t))
      /\ Ticket.priority t = 1
      /\ Ticket.subject t = subject.
Proof.
  intros number. destruct (number_taken number s) eqn:Hfree.
  - unfold confirm_ticket, create_ticket. fold number. by rewrite Hfree.
  - destruct (create_ticket_is_found_again_generic s user_id subject description
                category 1 is_anonymous prefix suffix Hfree)
      as (tid & t & s' & Hrun & Hnum & Hprio & Hsubj & Hno).
    exists tid, t, s'. unfold confirm_ticket. rewrite Hrun.
    unfold notify_new_ticket, send_to_moderators. rewrite notify_loop. simpl.
    rewrite Hno, Hsubj. by split_and!.
Qed.

(** X27: A reply of a member of staff is stored as a message flagged as written
    by staff, an [OPEN] ticket moving to [IN_PROGRESS], and the requester
    is sent one text with the number of the ticket and the reply, cut to
    200 characters.  The handler checks neither the text nor that the
    ticket exists: on an id that is not stored the message is stored all
    the same, nobody is notified, and the answer is still that the reply
    was sent. *)
Theorem process_admin_ticket_reply_stores_and_notifies (bot : Bot) (tid : Z)
    (reply_text : string) (user_id : Z) (users : gmap Z User.t)
    (s : TicketService.Store) :
  tid <> 0 ->
  let m := TicketMessage.mk (next_message_id s) tid user_id reply_text true false in
  match tickets s !! tid with
  | Some t =>
      let t' := if bool_decide (Ticket.status t = OPEN)
                then Ticket.set_status t IN_PROGRESS else t in
      process_admin_ticket_reply bot (Some tid) reply_text user_id users s
      = Ok (TicketService.mkStore (<[tid := t']> (tickets s)) (messages s ++ [m]),
            match users !! Ticket.user_id t with
            | Some requester =>
                [(User.telegram_id requester,
                  ticket_response_text (Ticket.ticket_number t) reply_text)]
            | None => []
            end,
            Some "✅ Ответ отправлен!")
  | None =>
      process_admin_ticket_reply bot (Some tid) reply_text user_id users s
      = Ok (TicketService.mkStore (tickets s) (messages s ++ [m]), [],
            Some "✅ Ответ отправлен!")
  end.
Proof.
  intros Hid m. unfold process_admin_ticket_reply. simpl.
  destruct (Z.eqb_spec tid 0) as [|_]; [done|]. simpl.
  unfold add_message, get_ticket_by_id.
  destruct (tickets s !! tid) as [t|] eqn:Ht; simpl.
  - rewrite lookup_insert_eq.
    destruct (bool_decide (Ticket.status t = OPEN)); simpl;
      by destruct (users !! Ticket.user_id t).
  - by rewrite Ht.
Qed.

Lemma process_admin_ticket_reply_stores_and_notifies_witness :
  process_admin_ticket_reply Samples.bot (Some 5) "Готово" 3 Samples.users
                             (Samples.ticket_store OPEN)
  = Ok (TicketService.mkStore
          (tickets (Samples.ticket_store OPEN))
          (messages (Samples.ticket_store OPEN)
             ++ [TicketMessage.mk 2 5 3 "Готово" true false]),
        [], Some "✅ Ответ отправлен!").
Proof.
  exact (process_admin_ticket_reply_stores_and_notifies Samples.bot 5 "Готово" 3
           Samples.users (Samples.ticket_store OPEN) ltac:(discriminate)).
Defined.

End StoreAndNotify.

Section StaffStatusMenu.
Import TicketService TicketKeyboards TicketHandlers.

(** X14: The status menu of the staff offers [IN_PROGRESS], [WAITING],
    [RESOLVED] and [CLOSED] for the ticket it is opened on, and the way
    back to the ticket.  The handler behind it does not check the status
    against the menu: whatever status the callback carries, sent by an
    admin or a moderator for a stored ticket, is the status the ticket has
    afterwards; [resolved_at] is set to the time of the change for
    [RESOLVED] and [CLOSED] and kept as it was otherwise, and the change is
    written to the log in the name of the member of staff. *)
Theorem staff_status_callback_sets_status (s : Store) (tid : Z) (t : Ticket.t)
    (role : UserRole) (uid now : Z) :
  tickets s !! tid = Some t ->
  role = ADMIN \/ role = MODERATOR ->
  (forall c, c ∈ callbacks (status_change tid)
             <-> c = ticket_view tid
                 \/ exists st, st ∈ [IN_PROGRESS; WAITING; RESOLVED; CLOSED]
                               /\ c = ticket_set_status tid st)
  /\ forall st,
       exists t' m,
         callback_set_ticket_status role tid st uid now s
         = (mkStore (<[tid := t']> (tickets s)) (messages s ++ [m]),
            Some ("Статус изменён на: " +:+ TicketStatus_value st))
         /\ Ticket.status t' = st
         /\ Ticket.resolved_at t'
            = (if bool_decide (st = RESOLVED \/ st = CLOSED)
               then Some now else Ticket.resolved_at t)
         /\ TicketMessage.ticket_id m = tid
         /\ TicketMessage.user_id m = uid
         /\ TicketMessage.is_from_staff m = true
         /\ TicketMessage.message m
            = "Статус изменён: " +:+ TicketStatus_value (Ticket.status t)
                +:+ " → " +:+ TicketStatus_value st.
Proof.
  intros Ht Hrole. split.
  - intros c. unfold callbacks, status_change. simpl.
    rewrite !elem_of_cons, elem_of_nil. split.
    + intros [->|[->|[->|[->|[->|[]]]]]]; [right..|by left]; eexists;
        (split; [|reflexivity]); set_solver.
    + intros [->|(st & Hst & ->)]; [tauto|].
      rewrite !elem_of_cons, elem_of_nil in Hst.
      destruct Hst as [->|[->|[->|[->|[]]]]]; tauto.
  - intros st. unfold callback_set_ticket_status.
    replace (admin_filter role) with true by (by destruct Hrole as [Hr|Hr]; rewrite Hr).
    simpl. rewrite (update_status_found _ _ _ _ _ _ _ Ht). simpl.
    eexists _, _. split; [reflexivity|]. simpl.
    split_and!; try reflexivity. by destruct st.
Qed.

Lemma staff_status_callback_sets_status_witness :
  exists t' m,
    callback_set_ticket_status MODERATOR 1 WAITING 9 100
                               (Samples.ticket_store IN_PROGRESS)
    = (mkStore (<[1 := t']> (tickets (Samples.ticket_store IN_PROGRESS)))
               (messages (Samples.ticket_store IN_PROGRESS) ++ [m]),
       Some "Статус изменён на: waiting")
    /\ Ticket.status t' = WAITING
    /\ Ticket.resolved_at t' = None.
Proof.
  destruct (staff_status_callback_sets_status (Samples.ticket_store IN_PROGRESS)
              1 (Samples.ticket IN_PROGRESS) MODERATOR 9 100 eq_refl
              (or_intror eq_refl)) as [Hmenu Hset].
  destruct (Hset WAITING) as (t' & m & Hrun & Hst & Hres & _).
  exists t', m. split_and!; [exact Hrun|exact Hst|exact Hres].
Defined.

End StaffStatusMenu.

Section ResponsePreview.
Import NotificationService.

Lemma append_assoc (a b c : string) : (a +:+ b) +:+ c = a +:+ (b +:+ c).
Proof.
  induction a as [|x a IH]; [reflexivity|].
  change (String x ((a +:+ b) +:+ c) = String x (a +:+ (b +:+ c))).
  by rewrite IH.
Qed.

Lemma take_chars_all (n : nat) (s : string) :
  (len s <= n)%nat -> take_chars n s = s.
Proof.
  revert n. induction s as [|c s IH]; intros n Hn; [reflexivity|].
  simpl in *.
  destruct (Z.land (Z.of_nat (Ascii.nat_of_ascii c)) 192 =? 128).
  - by rewrite IH.
  - destruct n as [|n]; [lia|]. rewrite IH by lia. reflexivity.
Qed.

Lemma take_chars_cut (n : nat) (s : string) :
  len (take_chars n s) = Nat.min n (len s)
  /\ exists rest, s = take_chars n s +:+ rest.
Proof.
  revert n. induction s as [|c s IH]; intros n.
  - simpl. split; [lia|]. by exists "".
  - simpl.
    destruct (Z.land (Z.of_nat (Ascii.nat_of_ascii c)) 192 =? 128) eqn:Hc.
    + destruct (IH n) as (Hlen & rest & Hrest). simpl. rewrite Hc.
      split; [exact Hlen|]. exists rest.
      change (String c s = String c (take_chars n s +:+ rest)).
      by rewrite <- Hrest.
    + destruct n as [|n].
      * split; [reflexivity|]. by exists (String c s).
      * destruct (IH n) as (Hlen & rest & Hrest). simpl. rewrite Hc.
        split; [lia|]. exists rest.
        change (String c s = String c (take_chars n s +:+ rest)).
        by rewrite <- Hrest.
Qed.

(** X28: The text a requester is sent about a reply carries the number of the
    ticket and the reply itself when it has 200 characters or fewer;
    a longer reply is cut to its first 200 characters, followed by three
    dots.  The text goes to the one chat given, and without a bot instance
    nothing is sent and nothing is raised. *)
Theorem notify_ticket_response_previews_reply (bot : Bot) (chat : Z)
    (ticket_number reply : string) :
  notify_ticket_response None chat ticket_number reply = []
  /\ exists preview,
       notify_ticket_response (Some bot) chat ticket_number reply
       = [(chat,
           "💬 <b>Ответ на ваше обращение</b>" +:+ NL +:+ NL
             +:+ "Номер: <code>" +:+ ticket_number +:+ "</code>" +:+ NL +:+ NL
             +:+ preview +:+ NL +:+ NL
             +:+ "Используйте /tickets для подробностей")]
       /\ ((len reply <= 200)%nat -> preview = reply)
       /\ ((200 < len reply)%nat ->
           exists cut rest,
             preview = cut +:+ "..." /\ reply = cut +:+ rest
             /\ len cut = 200%nat).
Proof.
  split; [reflexivity|].
  exists (take_chars 200 reply
          +:+ (if (200 <? len reply)%nat then "..." else "")).
  split_and!.
  - unfold notify_ticket_response, ticket_response_text.
    by rewrite (append_assoc (take_chars 200 reply)).
  - intros Hshort. destruct (Nat.ltb_spec 200 (len reply)) as [|_]; [lia|].
    by rewrite take_chars_all, append_empty_r.
  - intros Hlong. destruct (Nat.ltb_spec 200 (len reply)) as [_|]; [|lia].
    destruct (take_chars_cut 200 reply) as (Hlen & rest & Hrest).
    exists (take_chars 200 reply), rest. split_and!; [reflexivity|exact Hrest|lia].
Qed.

End ResponsePreview.
